(** * uTP socket, state content store and FindContent hand-off of the
      Portal Network client: a shallow embedding and its properties.

    The development follows the TypeScript sources:
    - [StateDB] (the in-memory content store of the state network),
    - [UtpSocket] (the per-connection uTP socket: senders, packet
      handlers, selective ACK, RTT / timeout, LEDBAT delay update),
    - [historyFindContent] of the JSON-RPC module (the wait for a uTP
      transfer).

    Conventions.
    - A JavaScript [number] that only ever holds an integer (sequence
      numbers, byte counts, map sizes) is a [Z]; arithmetic on it is exact
      (no wrap-around: the source never reduces modulo 2^16).
    - [max_window] is the one field that receives the result of a floating
      point division, so it is a binary64 [float].
    - An ethers [BigNumber] is a [Z]; [div] truncates toward zero.
    - A [Map] is a [gmap]; an array is a [list].
    - A call into a collaborator whose class is not part of the socket
      (the transport [utp], the packet senders, the content writer) is
      recorded, in call order, in the list of effects a method returns. *)

From Stdlib Require Import ZArith String Ascii Lia DecimalString Strings.Byte.
From Stdlib Require PrimFloat Uint63 Floats.
From stdpp Require Import base numbers list strings gmap sorting.

Open Scope Z_scope.

Abbreviation byte := Byte.byte.
Abbreviation bytes := (list Byte.byte).
Abbreviation float := PrimFloat.float.

(* ===================================================================== *)
(** * Part I: the model                                                   *)
(* ===================================================================== *)

(** ** [toHexString] of @chainsafe/ssz: "0x" and two lowercase hexadecimal
       digits per byte. *)
Module Hex.

Definition hexDigit (n : N) : ascii :=
  match n with
  | 0%N => "0" | 1%N => "1" | 2%N => "2" | 3%N => "3"
  | 4%N => "4" | 5%N => "5" | 6%N => "6" | 7%N => "7"
  | 8%N => "8" | 9%N => "9" | 10%N => "a" | 11%N => "b"
  | 12%N => "c" | 13%N => "d" | 14%N => "e" | _ => "f"
  end%char.

Definition hexByte (b : byte) : string :=
  String (hexDigit (Byte.to_N b / 16)) (String (hexDigit (Byte.to_N b mod 16)) EmptyString).

Fixpoint hexBody (bs : bytes) : string :=
  match bs with
  | [] => EmptyString
  | b :: rest => hexByte b +:+ hexBody rest
  end.

Definition toHexString (bs : bytes) : string := "0x" +:+ hexBody bs.

End Hex.

(** ** The state network's content store (class [StateDB]).
       [db] is the [MemoryLevel] key-value store, keyed by the hexadecimal
       string of the content key. *)
Module StateDB.

Record t := mk {
  db : gmap string bytes;
  blocks : gmap Z string;
  stateRoots : gmap string string
}.

(** [constructor]: an empty store and two empty maps. *)
Definition new : t := {| db := ∅; blocks := ∅; stateRoots := ∅ |}.

(** [storeContent]: [await this.db.put(toHexString(contentKey), content)],
    then [return true]. *)
Definition storeContent (self : t) (contentKey content : bytes) : t * bool :=
  ({| db := <[Hex.toHexString contentKey := content]> (db self);
      blocks := blocks self;
      stateRoots := stateRoots self |},
   true).

(** [getContent]: [this.db.get(toHexString(contentKey))]; [None] stands for
    a key the store does not hold. *)
Definition getContent (self : t) (contentKey : bytes) : option bytes :=
  db self !! Hex.toHexString contentKey.

End StateDB.

(** ** The operations of ethers' [BigNumber] the socket uses.
       [add], [sub], [mul] and [abs] are [Z.add], [Z.sub], [Z.mul] and
       [Z.abs]; [gt] is [Z.gtb]. *)
Module BigNumber.

(** [a.div(b)]: integer division truncated toward zero (bn.js). The socket
    only divides by the literals 4 and 8. *)
Definition div (a b : Z) : Z := Z.quot a b.

(** [a.toString()]: the decimal numeral, with a leading minus sign for a
    negative value. *)
Definition toString (a : Z) : string := NilZero.string_of_int (Z.to_int a).

(** The largest integer [toNumber] accepts: 2^53 - 1. *)
Definition MAX_SAFE_INTEGER : Z := 9007199254740991.

(** [a.toNumber()]: the value as a JavaScript number; it throws (here
    [None]) when the value does not fit 53 bits. *)
Definition toNumber (a : Z) : option Z :=
  if Z.abs a <=? MAX_SAFE_INTEGER then Some a else None.

(** [a < b] written with JavaScript's relational operator on two
    [BigNumber] objects (as [updateDelay] does). The class defines no
    [valueOf], so both operands are converted with [toString] and the
    two decimal strings are compared code unit by code unit. *)
Definition js_lt (a b : Z) : bool := String.ltb (toString a) (toString b).

End BigNumber.

(** ** JavaScript numbers that may be fractional. *)
Module Number.

(** The binary64 value of an integer (exact up to 2^53). *)
Definition of_Z (z : Z) : float :=
  match z with
  | Z0 => PrimFloat.zero
  | Zpos _ => PrimFloat.of_uint63 (Uint63.of_Z z)
  | Zneg p => PrimFloat.opp (PrimFloat.of_uint63 (Uint63.of_Z (Zpos p)))
  end.

(** [a > 0]; false when [a] is NaN. *)
Definition gt0 (a : float) : bool := PrimFloat.ltb PrimFloat.zero a.

End Number.

(** ** Packets (class [Packet]): the header fields the socket reads. *)
Module Packet.

Inductive PacketType := ST_DATA | ST_FIN | ST_STATE | ST_RESET | ST_SYN.

Record Header := mkHeader {
  seqNr : Z;
  ackNr : Z;
  timestampMicroseconds : Z
}.

Record t := mk {
  header : Header;
  payload : bytes
}.

End Packet.

(** ** The socket (class [UtpSocket]). *)
Module UtpSocket.

Inductive SocketType := TRead | TWrite.

Inductive ConnectionState := SynSent | SynRecv | Connected | GotFin | Closed | Reset.

(** [baseDelay: { delay; timestamp }]. *)
Module Delay.
Record t := mk {
  delay : Z;
  timestamp : Z
}.
End Delay.
Abbreviation Delay := Delay.t.

(** The content writer, as far as the socket looks into it: the flag
    [writer.writing]. Its [start()] is the effect [WriterStart]. *)
Record ContentWriter := mkWriter {
  writing : bool
}.

(** Modelled from the spec: the class [ContentReader] is not part of the
    socket's file. The reader is created with the first data packet's
    sequence number and [addPacket] buffers the packets it is given. *)
Record ContentReader := mkReader {
  startingSeqNr : Z;
  packets : list Packet.t
}.

Definition newContentReader (startingSeqNr : Z) : ContentReader :=
  {| startingSeqNr := startingSeqNr; packets := [] |}.

Definition addPacket (r : ContentReader) (p : Packet.t) : ContentReader :=
  {| startingSeqNr := startingSeqNr r; packets := packets r ++ [p] |}.

(** What [reader.run()] gives: the assembled content (possibly
    [undefined]) or a failure. *)
Inductive RunOutcome := Assembled (content : option bytes) | RunFailed.

(** The fields of the socket that its methods read or write. ([utp],
    [logger], [content], the two connection ids, [sendRate], [received]
    and [expected] are set by the constructor and not touched again in
    this class.) [timeoutCounter] is the pending timer, with its delay. *)
Record Socket := mkSocket {
  type : SocketType;
  remoteAddress : string;
  seqNr : Z;
  ackNr : Z;
  finNr : option Z;
  state : option ConnectionState;
  max_window : float;
  cur_window : Z;
  reply_micro : Z;
  rtt : Z;
  rtt_var : Z;
  timeout : Z;
  timeoutCounter : option Z;
  baseDelay : Delay;
  ourDelay : Z;
  writer : option ContentWriter;
  reader : option ContentReader;
  readerContent : option bytes;
  dataNrs : list Z;
  ackNrs : list Z;
  outBuffer : gmap Z Z
}.

Definition set_seqNr (v : Z) (s : Socket) : Socket :=
  {| type := type s; remoteAddress := remoteAddress s; seqNr := v; ackNr := ackNr s;
     finNr := finNr s; state := state s; max_window := max_window s;
     cur_window := cur_window s; reply_micro := reply_micro s; rtt := rtt s;
     rtt_var := rtt_var s; timeout := timeout s; timeoutCounter := timeoutCounter s;
     baseDelay := baseDelay s; ourDelay := ourDelay s; writer := writer s; reader := reader s;
     readerContent := readerContent s; dataNrs := dataNrs s; ackNrs := ackNrs s;
     outBuffer := outBuffer s |}.
Definition set_ackNr (v : Z) (s : Socket) : Socket :=
  {| type := type s; remoteAddress := remoteAddress s; seqNr := seqNr s; ackNr := v;
     finNr := finNr s; state := state s; max_window := max_window s;
     cur_window := cur_window s; reply_micro := reply_micro s; rtt := rtt s;
     rtt_var := rtt_var s; timeout := timeout s; timeoutCounter := timeoutCounter s;
     baseDelay := baseDelay s; ourDelay := ourDelay s; writer := writer s; reader := reader s;
     readerContent := readerContent s; dataNrs := dataNrs s; ackNrs := ackNrs s;
     outBuffer := outBuffer s |}.
Definition set_finNr (v : option Z) (s : Socket) : Socket :=
  {| type := type s; remoteAddress := remoteAddress s; seqNr := seqNr s; ackNr := ackNr s;
     finNr := v; state := state s; max_window := max_window s; cur_window := cur_window s;
     reply_micro := reply_micro s; rtt := rtt s; rtt_var := rtt_var s; timeout := timeout s;
     timeoutCounter := timeoutCounter s; baseDelay := baseDelay s; ourDelay := ourDelay s;
     writer := writer s; reader := reader s; readerContent := readerContent s;
     dataNrs := dataNrs s; ackNrs := ackNrs s; outBuffer := outBuffer s |}.
Definition set_state (v : option ConnectionState) (s : Socket) : Socket :=
  {| type := type s; remoteAddress := remoteAddress s; seqNr := seqNr s; ackNr := ackNr s;
     finNr := finNr s; state := v; max_window := max_window s; cur_window := cur_window s;
     reply_micro := reply_micro s; rtt := rtt s; rtt_var := rtt_var s; timeout := timeout s;
     timeoutCounter := timeoutCounter s; baseDelay := baseDelay s; ourDelay := ourDelay s;
     writer := writer s; reader := reader s; readerContent := readerContent s;
     dataNrs := dataNrs s; ackNrs := ackNrs s; outBuffer := outBuffer s |}.
Definition set_max_window (v : float) (s : Socket) : Socket :=
  {| type := type s; remoteAddress := remoteAddress s; seqNr := seqNr s; ackNr := ackNr s;
     finNr := finNr s; state := state s; max_window := v; cur_window := cur_window s;
     reply_micro := reply_micro s; rtt := rtt s; rtt_var := rtt_var s; timeout := timeout s;
     timeoutCounter := timeoutCounter s; baseDelay := baseDelay s; ourDelay := ourDelay s;
     writer := writer s; reader := reader s; readerContent := readerContent s;
     dataNrs := dataNrs s; ackNrs := ackNrs s; outBuffer := outBuffer s |}.
Definition set_cur_window (v : Z) (s : Socket) : Socket :=
  {| type := type s; remoteAddress := remoteAddress s; seqNr := seqNr s; ackNr := ackNr s;
     finNr := finNr s; state := state s; max_window := max_window s; cur_window := v;
     reply_micro := reply_micro s; rtt := rtt s; rtt_var := rtt_var s; timeout := timeout s;
     timeoutCounter := timeoutCounter s; baseDelay := baseDelay s; ourDelay := ourDelay s;
     writer := writer s; reader := reader s; readerContent := readerContent s;
     dataNrs := dataNrs s; ackNrs := ackNrs s; outBuffer := outBuffer s |}.
Definition set_reply_micro (v : Z) (s : Socket) : Socket :=
  {| type := type s; remoteAddress := remoteAddress s; seqNr := seqNr s; ackNr := ackNr s;
     finNr := finNr s; state := state s; max_window := max_window s;
     cur_window := cur_window s; reply_micro := v; rtt := rtt s; rtt_var := rtt_var s;
     timeout := timeout s; timeoutCounter := timeoutCounter s; baseDelay := baseDelay s;
     ourDelay := ourDelay s; writer := writer s; reader := reader s;
     readerContent := readerContent s; dataNrs := dataNrs s; ackNrs := ackNrs s;
     outBuffer := outBuffer s |}.
Definition set_rtt (v : Z) (s : Socket) : Socket :=
  {| type := type s; remoteAddress := remoteAddress s; seqNr := seqNr s; ackNr := ackNr s;
     finNr := finNr s; state := state s; max_window := max_window s;
     cur_window := cur_window s; reply_micro := reply_micro s; rtt := v; rtt_var := rtt_var s;
     timeout := timeout s; timeoutCounter := timeoutCounter s; baseDelay := baseDelay s;
     ourDelay := ourDelay s; writer := writer s; reader := reader s;
     readerContent := readerContent s; dataNrs := dataNrs s; ackNrs := ackNrs s;
     outBuffer := outBuffer s |}.
Definition set_rtt_var (v : Z) (s : Socket) : Socket :=
  {| type := type s; remoteAddress := remoteAddress s; seqNr := seqNr s; ackNr := ackNr s;
     finNr := finNr s; state := state s; max_window := max_window s;
     cur_window := cur_window s; reply_micro := reply_micro s; rtt := rtt s; rtt_var := v;
     timeout := timeout s; timeoutCounter := timeoutCounter s; baseDelay := baseDelay s;
     ourDelay := ourDelay s; writer := writer s; reader := reader s;
     readerContent := readerContent s; dataNrs := dataNrs s; ackNrs := ackNrs s;
     outBuffer := outBuffer s |}.
Definition set_timeout (v : Z) (s : Socket) : Socket :=
  {| type := type s; remoteAddress := remoteAddress s; seqNr := seqNr s; ackNr := ackNr s;
     finNr := finNr s; state := state s; max_window := max_window s;
     cur_window := cur_window s; reply_micro := reply_micro s; rtt := rtt s;
     rtt_var := rtt_var s; timeout := v; timeoutCounter := timeoutCounter s;
     baseDelay := baseDelay s; ourDelay := ourDelay s; writer := writer s; reader := reader s;
     readerContent := readerContent s; dataNrs := dataNrs s; ackNrs := ackNrs s;
     outBuffer := outBuffer s |}.
Definition set_timeoutCounter (v : option Z) (s : Socket) : Socket :=
  {| type := type s; remoteAddress := remoteAddress s; seqNr := seqNr s; ackNr := ackNr s;
     finNr := finNr s; state := state s; max_window := max_window s;
     cur_window := cur_window s; reply_micro := reply_micro s; rtt := rtt s;
     rtt_var := rtt_var s; timeout := timeout s; timeoutCounter := v; baseDelay := baseDelay s;
     ourDelay := ourDelay s; writer := writer s; reader := reader s;
     readerContent := readerContent s; dataNrs := dataNrs s; ackNrs := ackNrs s;
     outBuffer := outBuffer s |}.
Definition set_baseDelay (v : Delay) (s : Socket) : Socket :=
  {| type := type s; remoteAddress := remoteAddress s; seqNr := seqNr s; ackNr := ackNr s;
     finNr := finNr s; state := state s; max_window := max_window s;
     cur_window := cur_window s; reply_micro := reply_micro s; rtt := rtt s;
     rtt_var := rtt_var s; timeout := timeout s; timeoutCounter := timeoutCounter s;
     baseDelay := v; ourDelay := ourDelay s; writer := writer s; reader := reader s;
     readerContent := readerContent s; dataNrs := dataNrs s; ackNrs := ackNrs s;
     outBuffer := outBuffer s |}.
Definition set_ourDelay (v : Z) (s : Socket) : Socket :=
  {| type := type s; remoteAddress := remoteAddress s; seqNr := seqNr s; ackNr := ackNr s;
     finNr := finNr s; state := state s; max_window := max_window s;
     cur_window := cur_window s; reply_micro := reply_micro s; rtt := rtt s;
     rtt_var := rtt_var s; timeout := timeout s; timeoutCounter := timeoutCounter s;
     baseDelay := baseDelay s; ourDelay := v; writer := writer s; reader := reader s;
     readerContent := readerContent s; dataNrs := dataNrs s; ackNrs := ackNrs s;
     outBuffer := outBuffer s |}.
Definition set_writer (v : option ContentWriter) (s : Socket) : Socket :=
  {| type := type s; remoteAddress := remoteAddress s; seqNr := seqNr s; ackNr := ackNr s;
     finNr := finNr s; state := state s; max_window := max_window s;
     cur_window := cur_window s; reply_micro := reply_micro s; rtt := rtt s;
     rtt_var := rtt_var s; timeout := timeout s; timeoutCounter := timeoutCounter s;
     baseDelay := baseDelay s; ourDelay := ourDelay s; writer := v; reader := reader s;
     readerContent := readerContent s; dataNrs := dataNrs s; ackNrs := ackNrs s;
     outBuffer := outBuffer s |}.
Definition set_reader (v : option ContentReader) (s : Socket) : Socket :=
  {| type := type s; remoteAddress := remoteAddress s; seqNr := seqNr s; ackNr := ackNr s;
     finNr := finNr s; state := state s; max_window := max_window s;
     cur_window := cur_window s; reply_micro := reply_micro s; rtt := rtt s;
     rtt_var := rtt_var s; timeout := timeout s; timeoutCounter := timeoutCounter s;
     baseDelay := baseDelay s; ourDelay := ourDelay s; writer := writer s; reader := v;
     readerContent := readerContent s; dataNrs := dataNrs s; ackNrs := ackNrs s;
     outBuffer := outBuffer s |}.
Definition set_readerContent (v : option bytes) (s : Socket) : Socket :=
  {| type := type s; remoteAddress := remoteAddress s; seqNr := seqNr s; ackNr := ackNr s;
     finNr := finNr s; state := state s; max_window := max_window s;
     cur_window := cur_window s; reply_micro := reply_micro s; rtt := rtt s;
     rtt_var := rtt_var s; timeout := timeout s; timeoutCounter := timeoutCounter s;
     baseDelay := baseDelay s; ourDelay := ourDelay s; writer := writer s; reader := reader s;
     readerContent := v; dataNrs := dataNrs s; ackNrs := ackNrs s; outBuffer := outBuffer s |}.
Definition set_dataNrs (v : list Z) (s : Socket) : Socket :=
  {| type := type s; remoteAddress := remoteAddress s; seqNr := seqNr s; ackNr := ackNr s;
     finNr := finNr s; state := state s; max_window := max_window s;
     cur_window := cur_window s; reply_micro := reply_micro s; rtt := rtt s;
     rtt_var := rtt_var s; timeout := timeout s; timeoutCounter := timeoutCounter s;
     baseDelay := baseDelay s; ourDelay := ourDelay s; writer := writer s; reader := reader s;
     readerContent := readerContent s; dataNrs := v; ackNrs := ackNrs s;
     outBuffer := outBuffer s |}.
Definition set_ackNrs (v : list Z) (s : Socket) : Socket :=
  {| type := type s; remoteAddress := remoteAddress s; seqNr := seqNr s; ackNr := ackNr s;
     finNr := finNr s; state := state s; max_window := max_window s;
     cur_window := cur_window s; reply_micro := reply_micro s; rtt := rtt s;
     rtt_var := rtt_var s; timeout := timeout s; timeoutCounter := timeoutCounter s;
     baseDelay := baseDelay s; ourDelay := ourDelay s; writer := writer s; reader := reader s;
     readerContent := readerContent s; dataNrs := dataNrs s; ackNrs := v;
     outBuffer := outBuffer s |}.
Definition set_outBuffer (v : gmap Z Z) (s : Socket) : Socket :=
  {| type := type s; remoteAddress := remoteAddress s; seqNr := seqNr s; ackNr := ackNr s;
     finNr := finNr s; state := state s; max_window := max_window s;
     cur_window := cur_window s; reply_micro := reply_micro s; rtt := rtt s;
     rtt_var := rtt_var s; timeout := timeout s; timeoutCounter := timeoutCounter s;
     baseDelay := baseDelay s; ourDelay := ourDelay s; writer := writer s; reader := reader s;
     readerContent := readerContent s; dataNrs := dataNrs s; ackNrs := ackNrs s;
     outBuffer := v |}.

(** *** Effects, returned values and results *)

(** Calls that leave the socket, in the order they are made. A collaborator
    that is handed [this] is recorded with the socket as it is at the call. *)
Inductive Effect :=
| Send (remote : string) (packet : Packet.t) (ptype : Packet.PacketType)
    (* this.utp.emit('Send', remoteAddress, msg, HistoryNetwork, true) *)
| SendSynAckPacket (socket : Socket)          (* sendSynAckPacket(this) *)
| SendAckPacket (socket : Socket)             (* sendAckPacket(this) *)
| UtpSendStatePacket (socket : Socket)        (* this.utp.sendStatePacket(this) *)
| UtpSendSelectiveAckPacket (socket : Socket) (bitmask : list Z)
    (* this.utp.sendSelectiveAckPacket(this, bitmask) *)
| WriterStart                                 (* this.writer.start() *)
| LoggerDestroy                               (* this.logger.destroy() *)
| RemoveAllListeners.                         (* this.removeAllListeners() *)

Inductive Value :=
| undefined
| vtrue
| vState (c : ConnectionState)
| vPacket (p : Packet.t)
| vEncoded (p : Packet.t)           (* packet.encode() *)
| vContent (c : option bytes)
| vReply (e : Effect).              (* what the call [e] answered *)

Inductive Error :=
| TypeError          (* a method called on [undefined] *)
| NumericFault       (* BigNumber.toNumber out of range *)
| ReaderFailed.      (* reader.run() rejected *)

Inductive Completion := Return (v : Value) | Throw (e : Error).

Record Result := mkResult {
  sock : Socket;
  effects : list Effect;
  completion : Completion
}.

Definition ret (s : Socket) (es : list Effect) (v : Value) : Result :=
  {| sock := s; effects := es; completion := Return v |}.

Definition throw (s : Socket) (es : list Effect) (e : Error) : Result :=
  {| sock := s; effects := es; completion := Throw e |}.

(** *** Array helpers *)

(** [a.sort((x, y) => x - y)]: ascending numeric order. *)
Definition sortNumbers (a : list Z) : list Z := merge_sort Z.le a.

(** [a.includes(x)]. *)
Definition includes (a : list Z) (x : Z) : bool := bool_decide (x ∈ a).

(** [sorted.find((n, i) => sorted[i + 1] !== n + 1)]: the first element
    that is not followed by its successor. *)
Fixpoint findGap (a : list Z) : option Z :=
  match a with
  | [] => None
  | n :: rest =>
      match rest with
      | [] => Some n
      | m :: _ => if m =? n + 1 then findGap rest else Some n
      end
  end.

(** [Math.max(...a)]; [None] is the -Infinity of an empty array. *)
Definition Math_max (a : list Z) : option Z :=
  match a with
  | [] => None
  | x :: rest => Some (foldr Z.max x rest)
  end.

(** [window[k] = v] on a JavaScript array of booleans. [None] is the index
    [undefined - 1] of a table entry that does not exist, and a negative
    index names a property, not an element: neither changes the elements.
    An index past the end extends the array; the holes read as false. *)
Definition arraySet (window : list bool) (k : option Z) (v : bool) : list bool :=
  match k with
  | None => window
  | Some k =>
      if k <? 0 then window
      else if k <? Z.of_nat (length window) then <[Z.to_nat k := v]> window
      else window ++ replicate (Z.to_nat k - length window)%nat false ++ [v]
  end.

(** [new BitVectorType(32).serialize(BitArray.fromBoolArray(window))]:
    four bytes, bit [k] of the window at bit [k mod 8] of byte [k / 8]. *)
Definition bitAt (window : list bool) (k : nat) : Z :=
  Z.b2z (default false (window !! k)).

Definition packByte (window : list bool) (j : nat) : Z :=
  foldr (fun i acc => acc + Z.shiftl (bitAt window (8 * j + i)) (Z.of_nat i)) 0 (seq 0 8).

Definition serializeBitVector32 (window : list bool) : list Z :=
  map (packByte window) (seq 0 4).

(** *** The methods *)

Section Methods.

(** Constants imported from the package index, which is not part of the
    socket's file: the default packet size (the spec's MTU), the LEDBAT
    gain and the selective-ACK remap table. *)
Variable DEFAULT_PACKET_SIZE : Z.
Variable MAX_CWND_INCREASE_PACKETS_PER_RTT : Z.
Variable bitmap : list Z.

(** [ContentReader.run], which is not part of the socket's file. *)
Variable reader_run : ContentReader -> RunOutcome.

(** [constructor(utp, remoteAddress, sndId, rcvId, seqNr, ackNr, type,
    logger, content)]. *)
Definition new (remoteAddress : string) (seqNr ackNr : Z) (type : SocketType) : Socket :=
  {| type := type;
     remoteAddress := remoteAddress;
     seqNr := seqNr;
     ackNr := ackNr;
     finNr := None;
     state := None;
     max_window := Number.of_Z (DEFAULT_PACKET_SIZE * 3);
     cur_window := 0;
     reply_micro := 0;
     rtt := 1000;
     rtt_var := 0;
     timeout := 1000;
     timeoutCounter := None;
     baseDelay := {| Delay.delay := 0; Delay.timestamp := 0 |};
     ourDelay := 0;
     writer := None;
     reader := None;
     readerContent := Some [];
     dataNrs := [];
     ackNrs := [];
     outBuffer := ∅ |}.

(** [sendPacket]: encode, hand the datagram to the transport, return it. *)
Definition sendPacket (s : Socket) (packet : Packet.t) (ptype : Packet.PacketType) : Result :=
  ret s [Send (remoteAddress s) packet ptype] (vEncoded packet).



Definition sendDataPacket (s : Socket) (packet : Packet.t) : Result :=
  let s := set_state (Some Connected) s in
  let s := set_outBuffer
             (<[Packet.seqNr (Packet.header packet) :=
                  Packet.timestampMicroseconds (Packet.header packet)]> (outBuffer s)) s in
  let s := set_cur_window (Z.of_nat (size (outBuffer s)) * DEFAULT_PACKET_SIZE) s in
  let sent := sendPacket s packet Packet.ST_DATA in
  let s := set_seqNr (seqNr (sock sent) + 1) (sock sent) in
  ret s (effects sent) (vPacket packet).



Definition sendFinPacket (s : Socket) (packet : Packet.t) : Result :=
  let s := set_finNr (Some (Packet.seqNr (Packet.header packet))) s in
  sendPacket s packet Packet.ST_FIN.


(** [compare]: both arrays are sorted in place, then their JSON texts are
    compared; two arrays of integers have the same text exactly when they
    are equal. *)
Definition compare (s : Socket) : Socket * bool :=
  let s := set_dataNrs (sortNumbers (dataNrs s)) s in
  let s := set_ackNrs (sortNumbers (ackNrs s)) s in
  (s, bool_decide (dataNrs s = ackNrs s)).

(** [packet.header.ackNr === this.finNr]: false while [finNr] is
    [undefined]. *)
Definition isFinAck (s : Socket) (packet : Packet.t) : bool :=
  match finNr s with
  | Some f => Packet.ackNr (Packet.header packet) =? f
  | None => false
  end.

(** [this.writer?.writing]. *)
Definition writerWriting (s : Socket) : bool :=
  match writer s with
  | Some w => writing w
  | None => false
  end.

Definition handleStatePacket (s : Socket) (packet : Packet.t) : Result :=
  if isFinAck s packet then
    let s := set_timeoutCounter None s in
    let s := set_state (Some Closed) s in
    ret s [] vtrue
  else
    match type s with
    | TRead =>
        let s := set_state (Some Connected) s in
        ret s [SendAckPacket s] (vReply (SendAckPacket s))
    | TWrite =>
        let s := set_state (Some Connected) s in
        let s := match writer s with
                 | Some _ =>
                     let inFlight := Z.of_nat (size (outBuffer s)) in
                     set_cur_window (inFlight * DEFAULT_PACKET_SIZE) s
                 | None => s
                 end in
        let (s, equal) := compare s in
        if equal then ret s [] vtrue
        else if writerWriting s then ret s [WriterStart] undefined
        else ret s [] undefined
    end.

(** The loop of [generateSelectiveAckBitMask] over [i = from, from+1, ...]
    ([n] iterations). *)
Fixpoint fillWindow (s : Socket) (n : nat) (i : nat) (window : list bool) : list bool :=
  match n with
  | O => window
  | S n' =>
      let window :=
        if includes (ackNrs s) (ackNr s + 1 + Z.of_nat i)
        then arraySet window ((fun b => b - 1) <$> bitmap !! i) true
        else window in
      fillWindow s n' (S i) window
  end.

(** The boolean array [window] that [generateSelectiveAckBitMask] fills. *)
Definition selectiveAckWindow (s : Socket) : list bool :=
  fillWindow s 32 0 (replicate 32 false).

Definition generateSelectiveAckBitMask (s : Socket) : list Z :=
  serializeBitVector32 (selectiveAckWindow s).

Definition handleDataPacket (s : Socket) (packet : Packet.t) : Result :=
  let s := set_state (Some Connected) s in
  let expected := ackNr s + 1 =? Packet.seqNr (Packet.header packet) in
  let s := set_seqNr (seqNr s + 1) s in
  let s := match reader s with
           | None => set_reader (Some (newContentReader (Packet.seqNr (Packet.header packet)))) s
           | Some _ => s
           end in
  let s := set_ackNrs (ackNrs s ++ [Packet.seqNr (Packet.header packet)]) s in
  let s := set_reader (flip addPacket packet <$> reader s) s in
  if expected then
    let s := set_ackNrs (sortNumbers (ackNrs s)) s in
    let s := set_ackNr
               (match findGap (ackNrs s) with
                | Some n => n
                | None =>
                    match Math_max (ackNrs s) with
                    | Some m => m
                    | None => ackNr s  (* not reached: the array is not empty *)
                    end
                end) s in
    ret s [UtpSendStatePacket s] (vReply (UtpSendStatePacket s))
  else
    let bitmask := generateSelectiveAckBitMask s in
    ret s [UtpSendSelectiveAckPacket s bitmask] (vReply (UtpSendSelectiveAckPacket s bitmask)).

Definition handleFinPacket (s : Socket) (packet : Packet.t) : Result :=
  let s := set_state (Some GotFin) s in
  match reader s with
  | None => throw s [] TypeError
  | Some r =>
      match reader_run r with
      | RunFailed => throw s [] ReaderFailed
      | Assembled content =>
          let s := set_readerContent content s in
          let s := set_seqNr (seqNr s + 1) s in
          let s := set_ackNr (Packet.seqNr (Packet.header packet)) s in
          let reply := UtpSendStatePacket s in
          let s := set_timeoutCounter None s in
          ret s [reply] (vContent (readerContent s))
      end
  end.

(** [this.timeoutCounter = setTimeout(() => this.throttle(),
    this.timeout.toNumber())]. *)
Definition armTimeout (s : Socket) (es : list Effect) : Result :=
  match BigNumber.toNumber (timeout s) with
  | Some ms => ret (set_timeoutCounter (Some ms) s) es undefined
  | None => throw s es NumericFault
  end.

Definition updateRTT (s : Socket) (packetRTT : Z) : Result :=
  let delta := rtt s - packetRTT in
  let s := set_rtt_var (rtt_var s + BigNumber.div (Z.abs delta - rtt_var s) 4) s in
  let s := set_rtt (rtt s + BigNumber.div (packetRTT - rtt s) 8) s in
  let s := set_timeout
             (if rtt s + rtt_var s * 4 >? 500 then rtt s + rtt_var s * 4 else 500) s in
  let s := set_timeoutCounter None s in
  armTimeout s [].

Definition throttle (s : Socket) : Result :=
  let s := set_max_window (Number.of_Z DEFAULT_PACKET_SIZE) s in
  let s := set_timeoutCounter None s in
  let s := set_timeout (timeout s * 2) s in
  if writerWriting s then armTimeout s [WriterStart]
  else ret s [] undefined.

Definition updateDelay (s : Socket) (timestamp timeReceived : Z) : Result :=
  let delay := timeReceived - timestamp in
  let s := set_reply_micro delay s in
  let s := set_ourDelay (delay - Delay.delay (baseDelay s)) s in
  let s :=
    if timeReceived - Delay.timestamp (baseDelay s) >? 120000
    then set_baseDelay {| Delay.delay := delay; Delay.timestamp := timeReceived |} s
    else if BigNumber.js_lt delay (Delay.delay (baseDelay s))
    then set_baseDelay {| Delay.delay := delay; Delay.timestamp := timeReceived |} s
    else s in
  let offTarget := Delay.delay (baseDelay s) - ourDelay s in
  match BigNumber.toNumber offTarget, BigNumber.toNumber (Delay.delay (baseDelay s)) with
  | Some off, Some base =>
      let delayFactor := PrimFloat.div (Number.of_Z off) (Number.of_Z base) in
      let windowFactor := PrimFloat.div (Number.of_Z (cur_window s)) (max_window s) in
      let scaledGain :=
        PrimFloat.mul
          (PrimFloat.mul (Number.of_Z MAX_CWND_INCREASE_PACKETS_PER_RTT) delayFactor)
          windowFactor in
      let new_max :=
        if Number.gt0 (PrimFloat.add (max_window s) scaledGain)
        then PrimFloat.add (max_window s) scaledGain
        else PrimFloat.zero in
      ret (set_max_window new_max s) [] undefined
  | _, _ => throw s [] NumericFault
  end.


End Methods.

End UtpSocket.

(** ** [historyFindContent] of the JSON-RPC module. *)
Module Portal.

(** What [sendFindContent] answered: a list of ENRs, the content itself,
    or a uTP hand-off carrying a connection id. *)
Inductive Response :=
| FoundEnrs (enrs : list bytes)
| FoundContent (content : bytes)
| FoundUtp (connectionId : bytes).

(** What can be dispatched while the method waits on its promise: the
    timer set with [setTimeout] fires, or the transport emits a
    [HistoryNetwork] event [(contentType, hash, value)]. *)
Inductive WaitEvent :=
| TimerFired
| UtpContent (contentType : Z) (hash : string) (value : bytes).

(** The promise ([settled]: the value it was resolved with) and its timer
    (the delay it is pending with, in milliseconds). *)
Record Wait := mkWait {
  settled : option bytes;
  timer : option Z
}.

(** [s.slice(n)]: [s] without its first [n] characters. *)
Fixpoint slice (n : nat) (s : string) : string :=
  match n, s with
  | O, _ => s
  | S n', String _ rest => slice n' rest
  | S _, EmptyString => EmptyString
  end.

(** [resolve(v)]: settles a pending promise; no effect on a settled one. *)
Definition resolve (v : bytes) (w : Wait) : Wait :=
  match settled w with
  | Some _ => w
  | None => {| settled := Some v; timer := timer w |}
  end.

Definition clearTimeout (w : Wait) : Wait :=
  {| settled := settled w; timer := None |}.

(** The promise's executor: [setTimeout(() => resolve(Uint8Array.from([])),
    2000)] and the registration of the listener. *)
Definition startWait : Wait := {| settled := None; timer := Some 2000 |}.

(** One dispatched event. A cleared timer does not fire. *)
Definition dispatch (contentKey : string) (w : Wait) (e : WaitEvent) : Wait :=
  match e with
  | TimerFired =>
      match timer w with
      | Some _ => resolve [] (clearTimeout w)
      | None => w
      end
  | UtpContent _ hash value =>
      if String.eqb (slice 2 hash) (slice 4 contentKey)
      then resolve value (clearTimeout w)
      else w
  end.


Definition await (contentKey : string) (events : list WaitEvent) : Wait :=
  foldl (dispatch contentKey) startWait events.

Inductive RpcResult :=
| EmptyText                                            (* '' *)
| Enrs (enrs : list string)                            (* { enrs } *)
| Content (content : string) (utpTransfer : bool)      (* { content, utpTransfer } *)
| StillWaiting.                                        (* the promise is pending *)

(** [content.length > 0 ? toHexString(content) : ''] *)
Definition contentText (content : bytes) : string :=
  if (0 <? length content)%nat then Hex.toHexString content else EmptyString.

Section Rpc.

(** [ENR.decode(v).encodeTxt()], a library function. *)
Variable enrText : bytes -> string.

(** [historyFindContent([enr, contentKey])], as a function of what its
    environment answers: whether the routing table knows the node, whether
    the ping was answered, the answer to [sendFindContent] and the events
    dispatched while it waits. *)
Definition historyFindContent (contentKey : string) (known pong : bool)
    (res : option Response) (events : list WaitEvent) : RpcResult :=
  if negb known && negb pong then EmptyText
  else
    match res with
    | None => Enrs []
    | Some (FoundEnrs enrs) => Enrs (map enrText enrs)
    | Some (FoundContent content) => Content (contentText content) false
    | Some (FoundUtp _) =>
        match settled (await contentKey events) with
        | Some content => Content (contentText content) true
        | None => StillWaiting
        end
    end.

End Rpc.

End Portal.

(** ** [stateFindContent] of the JSON-RPC module: the same wait, on the
       state network's events; a list of ENRs is returned as it came. *)
Module PortalState.

Import Portal.

Inductive RpcResult :=
| EmptyText                                            (* '' *)
| Enrs (enrs : list bytes)                             (* { enrs: content } *)
| Content (content : string) (utpTransfer : bool)      (* { content, utpTransfer } *)
| StillWaiting.                                        (* the promise is pending *)

Definition stateFindContent (contentKey : string) (known pong : bool)
    (res : option Response) (events : list WaitEvent) : RpcResult :=
  if negb known && negb pong then EmptyText
  else
    match res with
    | None => Enrs []
    | Some (FoundEnrs enrs) => Enrs enrs
    | Some (FoundContent content) => Content (contentText content) false
    | Some (FoundUtp _) =>
        match settled (await contentKey events) with
        | Some content => Content (contentText content) true
        | None => StillWaiting
        end
    end.

End PortalState.

(** ** Sequences of calls: the same method applied to one input after the
       other, and any sequence of methods applied to one socket. *)
Module Runs.

Import UtpSocket.

(** The sequence numbers of a list of packets. *)
Definition numbers (ps : list Packet.t) : list Z :=
  (fun p => Packet.seqNr (Packet.header p)) <$> ps.


Section Runs.

Variable DEFAULT_PACKET_SIZE : Z.
Variable MAX_CWND_INCREASE_PACKETS_PER_RTT : Z.
Variable bitmap : list Z.
Variable reader_run : ContentReader -> RunOutcome.

(** [handleDataPacket] for each arriving packet. *)
Definition handleDataPackets (s : Socket) (arrivals : list Packet.t) : Socket :=
  foldl (fun s p => sock (handleDataPacket bitmap s p)) s arrivals.

(** [sendDataPacket] for each packet. *)
Definition sendDataPackets (s : Socket) (ps : list Packet.t) : Socket :=
  foldl (fun s p => sock (sendDataPacket DEFAULT_PACKET_SIZE s p)) s ps.

(** [updateRTT] for each measured round trip. *)
Definition updateRTTs (s : Socket) (samples : list Z) : Socket :=
  foldl (fun s packetRTT => sock (updateRTT s packetRTT)) s samples.




End Runs.

(** What a reader has received in order, counted from the [ackNr] it was
    created with: nothing twice, only numbers above [from], every number
    from [from + 1] to [ackNr], and not [ackNr + 1]. *)
Definition readerInOrder (from : Z) (s : Socket) : Prop :=
  NoDup (ackNrs s) /\
  (forall x, x ∈ ackNrs s -> from < x) /\
  from <= ackNr s /\
  (forall k, from < k <= ackNr s -> k ∈ ackNrs s) /\
  (ackNr s + 1 ∉ ackNrs s).

End Runs.

(** ** Concrete constants and scenarios used by the examples below. *)
Module Scenario.

(** Modelled from the spec: the wire constants [MTU] (default packet size,
    1280 bytes) and [MAX_CWND_INCREASE_PACKETS_PER_RTT] (8); the package
    index that defines them is not part of the socket's file. *)
Definition MTU : Z := 1280.
Definition MAX_CWND_INCREASE_PACKETS_PER_RTT : Z := 8.

(** A remap table of the kind the spec describes, a permutation of 1..32:
    this one reverses the bit order inside every byte. *)
Definition bitmap : list Z :=
  [8; 7; 6; 5; 4; 3; 2; 1; 16; 15; 14; 13; 12; 11; 10; 9;
   24; 23; 22; 21; 20; 19; 18; 17; 32; 31; 30; 29; 28; 27; 26; 25].

(** A reader whose [run] concatenates the buffered payloads. *)
Definition concatPayloads (r : UtpSocket.ContentReader) : UtpSocket.RunOutcome :=
  UtpSocket.Assembled (Some (concat (map Packet.payload (UtpSocket.packets r)))).

Definition dataPacket (seqNr : Z) : Packet.t :=
  {| Packet.header := {| Packet.seqNr := seqNr; Packet.ackNr := 0;
                         Packet.timestampMicroseconds := 0 |};
     Packet.payload := [] |}.

Definition statePacket (ackNr : Z) : Packet.t :=
  {| Packet.header := {| Packet.seqNr := 0; Packet.ackNr := ackNr;
                         Packet.timestampMicroseconds := 0 |};
     Packet.payload := [] |}.

(** A reader socket created with [ackNr = a]. *)
Definition readerSocket (a : Z) : UtpSocket.Socket :=
  UtpSocket.new MTU "0xabc" 1 a UtpSocket.TRead.

(** A writer socket. *)
Definition writerSocket : UtpSocket.Socket :=
  UtpSocket.new MTU "0xabc" 1 0 UtpSocket.TWrite.

(** The reader of scenario S5: created with [ackNr = 100], it receives
    102, 104 and 133, each out of order. [s5] is the handling of 133 and
    [s5Socket] the socket it leaves. *)
Definition s5 : UtpSocket.Result :=
  UtpSocket.handleDataPacket bitmap
    (UtpSocket.sock
       (UtpSocket.handleDataPacket bitmap
          (UtpSocket.sock (UtpSocket.handleDataPacket bitmap (readerSocket 100) (dataPacket 102)))
          (dataPacket 104)))
    (dataPacket 133).

Definition s5Socket : UtpSocket.Socket := UtpSocket.sock s5.

(** A reader socket that has received its first data packet, number 11,
    in order. *)
Definition readingSocket : UtpSocket.Socket :=
  UtpSocket.sock (UtpSocket.handleDataPacket bitmap (readerSocket 10) (dataPacket 11)).

(** A writer socket whose FIN (number 5) has been acknowledged: [Closed]. *)
Definition closedSocket : UtpSocket.Socket :=
  UtpSocket.sock
    (UtpSocket.handleStatePacket MTU
       (UtpSocket.sock (UtpSocket.sendFinPacket writerSocket (dataPacket 5)))
       (statePacket 5)).


(** A writer socket with a writer attached (the transport assigns
    [socket.writer] when it starts a transfer). *)
Definition writingSocket : UtpSocket.Socket :=
  UtpSocket.set_writer (Some {| UtpSocket.writing := true |}) writerSocket.

(** Two timestamped packets arriving at a write socket: the first is
    sent at 1000000 and received at 1001000 (delay 1000), the second is
    sent at 1002000 and received at 1002999 (delay 999). *)
Definition afterFirstDelay : UtpSocket.Result :=
  UtpSocket.updateDelay MAX_CWND_INCREASE_PACKETS_PER_RTT writingSocket 1000000 1001000.

Definition afterSecondDelay : UtpSocket.Result :=
  UtpSocket.updateDelay MAX_CWND_INCREASE_PACKETS_PER_RTT (UtpSocket.sock afterFirstDelay)
    1002000 1002999.

(** Packet 11 arrives in order, is delivered a second time, and is
    followed by packet 12. *)
Definition afterDuplicate : UtpSocket.Socket :=
  UtpSocket.sock (UtpSocket.handleDataPacket bitmap readingSocket (dataPacket 11)).

Definition afterDuplicateThenNext : UtpSocket.Result :=
  UtpSocket.handleDataPacket bitmap afterDuplicate (dataPacket 12).

(** A writer socket with one packet, numbered 1, in flight. *)
Definition sendingSocket : UtpSocket.Socket :=
  UtpSocket.sock (UtpSocket.sendDataPacket MTU writingSocket (dataPacket 1)).

(** A write socket with a writer, two data packets recorded as sent and
    one of them acknowledged. *)
Definition halfAckedSocket : UtpSocket.Socket :=
  UtpSocket.set_ackNrs [2] (UtpSocket.set_dataNrs [2; 1] writingSocket).

End Scenario.

(** ** The claims that the code does not meet, in the spec's own words.
       Each is compared below with what the methods compute. *)
Module Claimed.

Import UtpSocket.



(** "fin_nr := seq_nr; ... transition GotFin -> Closed", for the socket [s']
    that handling the FIN [packet] leaves. *)
Definition finHandled (packet : Packet.t) (s' : Socket) : Prop :=
  finNr s' = Some (Packet.seqNr (Packet.header packet)) /\ state s' = Some Closed.



End Claimed.

(** ** Conditions under which the reader path does what the spec says. *)
Module Wellformed.

(** The remap table is a permutation of 1..32, as the spec describes it:
    32 distinct entries between 1 and 32. *)
Definition validBitmap (bitmap : list Z) : Prop :=
  length bitmap = 32%nat /\ NoDup bitmap /\ forall b, b ∈ bitmap -> 1 <= b <= 32.

(** "The largest contiguous received seq_nr": every number from [from] to
    [n] has been received and [n + 1] has not. *)
Definition largestContiguous (received : list Z) (from n : Z) : Prop :=
  from <= n /\ (forall k, from <= k <= n -> k ∈ received) /\ n + 1 ∉ received.

(** What has been received before the packet numbered [next] arrives in
    order: no number twice, not [next] itself, and below [next] no gap
    after the smallest number received. *)
Definition inOrderSoFar (received : list Z) (next : Z) : Prop :=
  NoDup received /\ (next ∉ received) /\
  forall x, x ∈ received -> x < next -> forall k, x <= k < next -> k ∈ received.

End Wellformed.

(** Closed statements about concrete scenarios are settled by evaluation,
    one conjunct at a time. *)
Ltac by_evaluation :=
  repeat match goal with |- _ /\ _ => split end; vm_compute; reflexivity.

(* ===================================================================== *)
(** * Part II: properties                                                 *)
(* ===================================================================== *)

(** ** The content store *)

Lemma hexDigit_inj (m n : N) :
  (m < 16)%N -> (n < 16)%N -> Hex.hexDigit m = Hex.hexDigit n -> m = n.
Proof.
  intros Hm Hn.
  assert (Hcases : forall k : N, (k < 16)%N ->
    k = 0%N \/ k = 1%N \/ k = 2%N \/ k = 3%N \/ k = 4%N \/ k = 5%N \/ k = 6%N \/ k = 7%N \/
    k = 8%N \/ k = 9%N \/ k = 10%N \/ k = 11%N \/ k = 12%N \/ k = 13%N \/ k = 14%N \/
    k = 15%N) by (intros k Hk; lia).
  destruct (Hcases m Hm) as [->|[->|[->|[->|[->|[->|[->|[->|[->|[->|[->|[->|[->|[->|[->| ->]]]]]]]]]]]]]]];
  destruct (Hcases n Hn) as [->|[->|[->|[->|[->|[->|[->|[->|[->|[->|[->|[->|[->|[->|[->| ->]]]]]]]]]]]]]]];
  simpl; intros H; first [reflexivity | discriminate H].
Qed.

Lemma hexByte_inj (a b : byte) : Hex.hexByte a = Hex.hexByte b -> a = b.
Proof.
  unfold Hex.hexByte. intros H. injection H as Hhi Hlo.
  pose proof (Byte.to_N_bounded a) as Ha. pose proof (Byte.to_N_bounded b) as Hb.
  apply hexDigit_inj in Hhi; [| apply N.Div0.div_lt_upper_bound; lia ..].
  apply hexDigit_inj in Hlo; [| apply N.mod_lt; lia ..].
  assert (Heq : Byte.to_N a = Byte.to_N b)
    by (rewrite (N.div_mod' (Byte.to_N a) 16), (N.div_mod' (Byte.to_N b) 16); congruence).
  pose proof (Byte.of_to_N a) as Hoa. pose proof (Byte.of_to_N b) as Hob.
  rewrite Heq in Hoa. congruence.
Qed.

Lemma hexBody_inj (k k' : bytes) : Hex.hexBody k = Hex.hexBody k' -> k = k'.
Proof.
  revert k'. induction k as [|a k IH]; intros [|b k'] H; simpl in H.
  - reflexivity.
  - discriminate H.
  - discriminate H.
  - injection H as Hhi Hlo Hrest.
    f_equal.
    + apply hexByte_inj. unfold Hex.hexByte. congruence.
    + apply IH, Hrest.
Qed.

(** Distinct content keys have distinct database keys. *)
Lemma toHexString_inj (k k' : bytes) : Hex.toHexString k = Hex.toHexString k' -> k = k'.
Proof.
  unfold Hex.toHexString. intros H. simpl in H. injection H as H. apply hexBody_inj, H.
Qed.

(** C10. [storeContent k c] returns [true]; a following [getContent k]
    gives exactly [c]; and storing twice under one key leaves the store as
    if only the later content had been stored, so [getContent] gives the
    bytes stored last. *)
Theorem storeContent_then_getContent (self : StateDB.t) (k c c' : bytes) :
  (StateDB.storeContent self k c).2 = true /\
  StateDB.getContent (StateDB.storeContent self k c).1 k = Some c /\
  (StateDB.storeContent (StateDB.storeContent self k c').1 k c).1
    = (StateDB.storeContent self k c).1 /\
  StateDB.getContent (StateDB.storeContent (StateDB.storeContent self k c').1 k c).1 k
    = Some c.
Proof.
  unfold StateDB.storeContent, StateDB.getContent; simpl.
  repeat split.
  - apply lookup_insert_eq.
  - f_equal. apply insert_insert_eq.
  - apply lookup_insert_eq.
Qed.

(** Storing under one key does not change what another key holds. *)
Lemma storeContent_other_key (self : StateDB.t) (k k' c : bytes) :
  k <> k' ->
  StateDB.getContent (StateDB.storeContent self k c).1 k' = StateDB.getContent self k'.
Proof.
  intros Hne. unfold StateDB.storeContent, StateDB.getContent; simpl.
  apply lookup_insert_ne. intros H. apply Hne, toHexString_inj, H.
Qed.

Lemma storeContent_other_key_example :
  StateDB.getContent (StateDB.storeContent StateDB.new ["a"%byte] ["x"%byte]).1 ["b"%byte]
    = StateDB.getContent StateDB.new ["b"%byte].
Proof. apply storeContent_other_key. discriminate. Defined.

(** ** Round-trip time and retransmission timeout *)

Section Timing.

Import UtpSocket.

Variable DEFAULT_PACKET_SIZE : Z.

Lemma armTimeout_fields (s : Socket) (es : list Effect) :
  let s' := sock (armTimeout s es) in
  rtt s' = rtt s /\ rtt_var s' = rtt_var s /\ timeout s' = timeout s /\
  max_window s' = max_window s /\ cur_window s' = cur_window s /\
  state s' = state s /\ outBuffer s' = outBuffer s.
Proof.
  unfold armTimeout. destruct (BigNumber.toNumber (timeout s)); simpl; repeat split.
Qed.



Lemma throttle_fields (s : Socket) :
  max_window (sock (throttle DEFAULT_PACKET_SIZE s)) = Number.of_Z DEFAULT_PACKET_SIZE /\
  timeout (sock (throttle DEFAULT_PACKET_SIZE s)) = timeout s * 2.
Proof.
  unfold throttle. destruct (writerWriting _).
  - match goal with |- context [armTimeout ?t ?es] =>
      destruct (armTimeout_fields t es) as (_ & _ & Hto & Hmax & _) end.
    cbv zeta in Hto, Hmax. rewrite Hto, Hmax. simpl. split; reflexivity.
  - simpl. split; reflexivity.
Qed.

(** C6. After [throttle()], [max_window] is the default packet size and the
    timeout is twice, hence at least twice, what it was. *)
Theorem throttle_clamps_window_and_doubles_timeout (s : Socket) :
  let s' := sock (throttle DEFAULT_PACKET_SIZE s) in
  max_window s' = Number.of_Z DEFAULT_PACKET_SIZE /\
  timeout s' = 2 * timeout s /\
  2 * timeout s <= timeout s'.
Proof.
  cbv zeta. destruct (throttle_fields s) as [Hmax Hto].
  rewrite Hmax, Hto. repeat split; lia.
Qed.

(** Consecutive timeouts back off exponentially: [n] calls of [throttle()]
    multiply the timeout by [2 ^ n]. *)
Lemma throttle_iterated (n : nat) (s : Socket) :
  timeout (Nat.iter n (fun s => sock (throttle DEFAULT_PACKET_SIZE s)) s)
    = 2 ^ Z.of_nat n * timeout s.
Proof.
  induction n as [|n IH].
  - simpl. lia.
  - rewrite Nat.iter_succ.
    destruct (throttle_fields (Nat.iter n (fun s => sock (throttle DEFAULT_PACKET_SIZE s)) s))
      as [_ Hdouble].
    rewrite Hdouble, IH.
    rewrite Nat2Z.inj_succ, Z.pow_succ_r by lia. lia.
Qed.

(** ** The delay update *)

(** What [updateDelay] does to the delay fields: the base delay is replaced
    by the new measurement when more than 120000 time units have passed
    since it was taken, or when the decimal string of the new delay sorts
    before that of the base delay. *)
Lemma updateDelay_delays (gain : Z) (s : Socket) (sent received : Z) :
  let s' := sock (updateDelay gain s sent received) in
  reply_micro s' = received - sent /\
  ourDelay s' = received - sent - Delay.delay (baseDelay s) /\
  baseDelay s' =
    (if (received - Delay.timestamp (baseDelay s) >? 120000)
        || BigNumber.js_lt (received - sent) (Delay.delay (baseDelay s))
     then {| Delay.delay := received - sent; Delay.timestamp := received |}
     else baseDelay s).
Proof.
  unfold updateDelay. cbv zeta. simpl.
  destruct (received - Delay.timestamp (baseDelay s) >? 120000); simpl.
  - destruct (BigNumber.toNumber _); [destruct (BigNumber.toNumber _) |]; simpl; repeat split.
  - destruct (BigNumber.js_lt (received - sent) (Delay.delay (baseDelay s))); simpl;
      (destruct (BigNumber.toNumber _); [destruct (BigNumber.toNumber _) |]); simpl;
      repeat split.
Qed.

End Timing.

(** ** The packet handlers and the socket's state *)

Section Handlers.

Import UtpSocket.

Variable DEFAULT_PACKET_SIZE : Z.
Variable bitmap : list Z.
Variable reader_run : ContentReader -> RunOutcome.

Lemma compare_fields (s : Socket) :
  state (compare s).1 = state s /\ cur_window (compare s).1 = cur_window s /\
  outBuffer (compare s).1 = outBuffer s /\ seqNr (compare s).1 = seqNr s /\
  ackNr (compare s).1 = ackNr s /\ finNr (compare s).1 = finNr s /\
  writer (compare s).1 = writer s.
Proof. unfold compare; simpl. repeat split. Qed.

(** What [handleStatePacket] does to the state, the window and the buffer,
    case by case. *)
Lemma handleStatePacket_fields (s : Socket) (packet : Packet.t) :
  let s' := sock (handleStatePacket DEFAULT_PACKET_SIZE s packet) in
  outBuffer s' = outBuffer s /\
  state s' = Some (if isFinAck s packet then Closed else Connected) /\
  cur_window s' =
    (if isFinAck s packet then cur_window s
     else match type s, writer s with
          | TWrite, Some _ => Z.of_nat (size (outBuffer s)) * DEFAULT_PACKET_SIZE
          | _, _ => cur_window s
          end).
Proof.
  unfold handleStatePacket.
  destruct (isFinAck s packet); [simpl; repeat split |].
  destruct (type s); [simpl; repeat split |].
  match goal with |- context [compare ?t] =>
    destruct (compare_fields t) as (Hst & Hcw & Hob & _);
    destruct (compare t) as [t' eq] end.
  simpl in Hst, Hcw, Hob.
  destruct eq; [| destruct (writerWriting t')]; simpl; rewrite Hst, Hcw, Hob;
    destruct (writer s); simpl; repeat split.
Qed.


(** On a read socket, or a write socket without a writer, a STATE packet
    that does not acknowledge the FIN connects the socket and leaves
    [cur_window] as it was. *)
Lemma handleStatePacket_keeps_window (s : Socket) (packet : Packet.t) :
  type s = TRead \/ writer s = None ->
  isFinAck s packet = false ->
  let s' := sock (handleStatePacket DEFAULT_PACKET_SIZE s packet) in
  state s' = Some Connected /\ cur_window s' = cur_window s.
Proof.
  intros Hcase Hfin.
  destruct (handleStatePacket_fields s packet) as (_ & Hst & Hcw).
  cbv zeta in *. rewrite Hfin in Hst, Hcw. split; [exact Hst |].
  rewrite Hcw. destruct Hcase as [-> | ->]; [reflexivity | destruct (type s); reflexivity].
Qed.

(** What [handleDataPacket] does, field by field. *)
Lemma handleDataPacket_fields (s : Socket) (packet : Packet.t) :
  let r := handleDataPacket bitmap s packet in
  let n := Packet.seqNr (Packet.header packet) in
  state (sock r) = Some Connected /\
  seqNr (sock r) = seqNr s + 1 /\
  reader (sock r) = Some (addPacket (default (newContentReader n) (reader s)) packet) /\
  ackNrs (sock r) =
    (if ackNr s + 1 =? n then sortNumbers (ackNrs s ++ [n]) else ackNrs s ++ [n]) /\
  ackNr (sock r) =
    (if ackNr s + 1 =? n
     then default (default (ackNr s) (Math_max (sortNumbers (ackNrs s ++ [n]))))
            (findGap (sortNumbers (ackNrs s ++ [n])))
     else ackNr s) /\
  effects r =
    (if ackNr s + 1 =? n then [UtpSendStatePacket (sock r)]
     else [UtpSendSelectiveAckPacket (sock r) (generateSelectiveAckBitMask bitmap (sock r))]).
Proof.
  unfold handleDataPacket. cbv zeta. simpl.
  destruct (ackNr s + 1 =? Packet.seqNr (Packet.header packet));
    destruct (reader s) as [r0|] eqn:Hr; simpl; rewrite ?Hr; simpl; repeat split;
    try (destruct (findGap _); [reflexivity |]; destruct (Math_max _); reflexivity).
Qed.

(** [handleDataPacket] connects the socket without touching the window or
    the outgoing buffer. *)
Lemma handleDataPacket_keeps_window (s : Socket) (packet : Packet.t) :
  let s' := sock (handleDataPacket bitmap s packet) in
  state s' = Some Connected /\ cur_window s' = cur_window s /\ outBuffer s' = outBuffer s.
Proof.
  unfold handleDataPacket. cbv zeta. simpl.
  destruct (ackNr s + 1 =? Packet.seqNr (Packet.header packet));
    destruct (reader s); simpl; repeat split.
Qed.


(** C2, as the code has it. When the socket has a reader and its [run]
    delivers, handling a FIN sets the state to [GotFin] and leaves it
    there, stores what [run] delivered in [readerContent], increments
    [seqNr], sets [ackNr] (not [finNr], which stays as it was) to the FIN's
    sequence number, emits one STATE packet for the socket as it then is,
    and cancels the timer. *)
Theorem handleFinPacket_acknowledges_fin (s : Socket) (packet : Packet.t)
    (r0 : ContentReader) (content : option bytes) :
  reader s = Some r0 ->
  reader_run r0 = Assembled content ->
  let r := handleFinPacket reader_run s packet in
  state (sock r) = Some GotFin /\
  readerContent (sock r) = content /\
  seqNr (sock r) = seqNr s + 1 /\
  ackNr (sock r) = Packet.seqNr (Packet.header packet) /\
  finNr (sock r) = finNr s /\
  timeoutCounter (sock r) = None /\
  effects r = [UtpSendStatePacket (set_timeoutCounter (timeoutCounter s) (sock r))] /\
  completion r = Return (vContent content).
Proof.
  intros Hr Hrun. unfold handleFinPacket. simpl. rewrite Hr, Hrun. simpl.
  repeat split.
Qed.

(** Without a reader, [this.reader!.run()] throws after the state has been
    set to [GotFin]; nothing is emitted. *)
Lemma handleFinPacket_without_reader (s : Socket) (packet : Packet.t) :
  reader s = None ->
  handleFinPacket reader_run s packet = throw (set_state (Some GotFin) s) [] TypeError.
Proof. intros Hr. unfold handleFinPacket. simpl. rewrite Hr. reflexivity. Qed.

End Handlers.



(** C2, witness: the FIN numbered 12 arrives at a reader that holds packet
    11. *)
Lemma handleFinPacket_acknowledges_fin_witness :
  let r := UtpSocket.handleFinPacket Scenario.concatPayloads Scenario.readingSocket
             (Scenario.dataPacket 12) in
  UtpSocket.state (UtpSocket.sock r) = Some UtpSocket.GotFin /\
  UtpSocket.ackNr (UtpSocket.sock r) = 12 /\
  UtpSocket.finNr (UtpSocket.sock r) = None.
Proof.
  destruct (handleFinPacket_acknowledges_fin Scenario.concatPayloads Scenario.readingSocket
              (Scenario.dataPacket 12)
              (UtpSocket.addPacket (UtpSocket.newContentReader 11) (Scenario.dataPacket 11))
              (Some []) eq_refl eq_refl)
    as (Hst & _ & _ & Hack & Hfin & _).
  cbv zeta. split; [exact Hst | split; [exact Hack | exact Hfin]].
Defined.

(** C2, counterexample. After that FIN the socket's [finNr] is still
    undefined and its state is [GotFin], not [Closed]. *)
Lemma handleFinPacket_leaves_finNr_and_GotFin :
  ~ Claimed.finHandled (Scenario.dataPacket 12)
      (UtpSocket.sock (UtpSocket.handleFinPacket Scenario.concatPayloads
                         Scenario.readingSocket (Scenario.dataPacket 12))).
Proof.
  unfold Claimed.finHandled. intros [Hfin _]. vm_compute in Hfin. discriminate Hfin.
Qed.

(** The state after that FIN is [GotFin]. *)
Lemma handleFinPacket_example_state :
  UtpSocket.state (UtpSocket.sock (UtpSocket.handleFinPacket Scenario.concatPayloads
                     Scenario.readingSocket (Scenario.dataPacket 12)))
    = Some UtpSocket.GotFin.
Proof. reflexivity. Qed.


(** The same for a STATE packet: the [Closed] socket becomes [Connected]. *)
Lemma closed_socket_handles_state :
  UtpSocket.state Scenario.closedSocket = Some UtpSocket.Closed /\
  UtpSocket.state
    (UtpSocket.sock (UtpSocket.handleStatePacket Scenario.MTU Scenario.closedSocket
                       (Scenario.statePacket 9)))
    = Some UtpSocket.Connected.
Proof. split; reflexivity. Qed.

(** C3, at the failing input. Packet 11 arrives in order ([ackNr] becomes
    11) and is then delivered again; the duplicate stays in [ackNrs]. When
    packet 12 arrives, in order, the sorted array is [11; 11; 12], the
    search for the first element not followed by its successor stops at the
    first 11, and [ackNr] stays 11 although 11 and 12 have both been
    received. *)
Lemma duplicate_data_stalls_ackNr :
  UtpSocket.ackNr Scenario.readingSocket = 11 /\
  UtpSocket.ackNr Scenario.afterDuplicate = 11 /\
  UtpSocket.ackNrs Scenario.afterDuplicate = [11; 11] /\
  UtpSocket.ackNr Scenario.afterDuplicate + 1 = Packet.seqNr (Packet.header (Scenario.dataPacket 12)) /\
  UtpSocket.ackNrs (UtpSocket.sock Scenario.afterDuplicateThenNext) = [11; 11; 12] /\
  UtpSocket.ackNr (UtpSocket.sock Scenario.afterDuplicateThenNext) = 11 /\
  ~ Wellformed.largestContiguous
      (UtpSocket.ackNrs (UtpSocket.sock Scenario.afterDuplicateThenNext)) 12
      (UtpSocket.ackNr (UtpSocket.sock Scenario.afterDuplicateThenNext)).
Proof.
  assert (Hack : UtpSocket.ackNr (UtpSocket.sock Scenario.afterDuplicateThenNext) = 11)
    by by_evaluation.
  do 6 (split; [by_evaluation |]).
  rewrite Hack. intros [Hle _]. lia.
Qed.

(** C1, at the input of scenario S5 ([ackNr = 100]; 102, 104 and 133
    received, the mask being the one emitted when 133 arrives). The loop
    tests [ackNr + 1 + i]: 102 is found at [i = 1] and
    104 at [i = 3], so the bits set are those at [bitmap[1] - 1 = 6] and
    [bitmap[3] - 1 = 4]; 133 is [ackNr + 1 + 32] and is never tested. The
    bits the scenario expects, at [bitmap[0] - 1 = 7], [bitmap[2] - 1 = 5]
    and [bitmap[31] - 1 = 24], are all false. *)
Lemma selective_ack_scenario_S5 :
  let window := UtpSocket.selectiveAckWindow Scenario.bitmap Scenario.s5Socket in
  UtpSocket.ackNr Scenario.s5Socket = 100 /\
  UtpSocket.ackNrs Scenario.s5Socket = [102; 104; 133] /\
  (forall k : nat, window !! k = Some true <-> k = 6%nat \/ k = 4%nat) /\
  window !! 7%nat = Some false /\
  window !! 5%nat = Some false /\
  window !! 24%nat = Some false /\
  UtpSocket.effects Scenario.s5
    = [UtpSocket.UtpSendSelectiveAckPacket Scenario.s5Socket [80; 0; 0; 0]].
Proof.
  cbv zeta.
  assert (Hw : UtpSocket.selectiveAckWindow Scenario.bitmap Scenario.s5Socket
               = <[6%nat := true]> (<[4%nat := true]> (replicate 32 false)))
    by (vm_compute; reflexivity).
  split; [vm_compute; reflexivity |]. split; [vm_compute; reflexivity |].
  split; [| rewrite Hw; by_evaluation].
  intros k. rewrite Hw. split.
  - intros Hk.
    destruct (decide (k = 6%nat)) as [-> | H6]; [left; reflexivity |].
    destruct (decide (k = 4%nat)) as [-> | H4]; [right; reflexivity |].
    rewrite list_lookup_insert_ne in Hk by congruence.
    rewrite list_lookup_insert_ne in Hk by congruence.
    apply lookup_replicate in Hk. destruct Hk as [Hk _]. discriminate Hk.
  - intros [-> | ->]; reflexivity.
Qed.

(** C7, at the failing input. A first packet with delay 1000 sets the base
    delay to 1000. A second packet, 1999 time units later, has the smaller
    delay 999; [delay < this.baseDelay.delay] compares the decimal strings
    of the two values, and "999" is not below "1000", so the base delay
    stays 1000. *)
Lemma updateDelay_compares_decimal_strings :
  UtpSocket.baseDelay (UtpSocket.sock Scenario.afterFirstDelay)
    = {| UtpSocket.Delay.delay := 1000; UtpSocket.Delay.timestamp := 1001000 |} /\
  UtpSocket.reply_micro (UtpSocket.sock Scenario.afterSecondDelay) = 999 /\
  UtpSocket.baseDelay (UtpSocket.sock Scenario.afterSecondDelay)
    = {| UtpSocket.Delay.delay := 1000; UtpSocket.Delay.timestamp := 1001000 |} /\
  BigNumber.js_lt 999 1000 = false /\
  BigNumber.js_lt 1000 999 = true.
Proof. by_evaluation. Qed.

(** ** The wait for a uTP transfer in [historyFindContent] *)

Section FindContent.

Import Portal.

Variable enrText : bytes -> string.

(** A settled promise keeps its value. *)
Lemma dispatch_settled (contentKey : string) (w : Wait) (e : WaitEvent) (v : bytes) :
  settled w = Some v -> settled (dispatch contentKey w e) = Some v.
Proof.
  intros Hw. destruct e as [|ct hash value]; simpl.
  - destruct (timer w); [| exact Hw]. unfold resolve; simpl. rewrite Hw. exact Hw.
  - destruct (String.eqb _ _); [| exact Hw]. unfold resolve; simpl. rewrite Hw. exact Hw.
Qed.

Lemma foldl_dispatch_settled (contentKey : string) (events : list WaitEvent) (w : Wait)
    (v : bytes) :
  settled w = Some v -> settled (foldl (dispatch contentKey) w events) = Some v.
Proof.
  revert w. induction events as [|e events IH]; intros w Hw; simpl.
  - exact Hw.
  - apply IH, dispatch_settled, Hw.
Qed.




End FindContent.


(** ** The cumulative acknowledgement of in-order data *)

Section CumulativeAck.

Import UtpSocket Wellformed.

Variable bitmap : list Z.

(** On a sorted array without repetition, the search stops at the end of
    the run of consecutive numbers that starts with the first element. *)
Lemma findGap_sorted (l : list Z) :
  StronglySorted Z.le l -> NoDup l ->
  forall x rest, l = x :: rest ->
  exists n, findGap l = Some n /\ x <= n /\ (forall k, x <= k <= n -> k ∈ l) /\ n + 1 ∉ l.
Proof.
  induction l as [|a l IH]; intros Hsorted Hnodup x rest Heq; [discriminate Heq |].
  injection Heq as -> ->.
  apply StronglySorted_inv in Hsorted as [Hsorted Hle].
  apply NoDup_cons in Hnodup as [Hfresh Hnodup].
  destruct rest as [|m rest].
  - exists x. simpl. repeat split; [lia | | ].
    + intros k Hk. replace k with x by lia. apply list_elem_of_here.
    + intros Hin. apply list_elem_of_singleton in Hin. lia.
  - assert (Hxm : x < m).
    { apply Forall_cons in Hle as [Hxm _].
      assert (x <> m) by (intros ->; apply Hfresh; set_solver). lia. }
    simpl. destruct (Z.eqb_spec m (x + 1)) as [Hm | Hm].
    + destruct (IH Hsorted Hnodup m rest eq_refl) as (n & Hfind & Hmn & Hrun & Hnext).
      exists n. split; [exact Hfind |]. split; [lia |]. split.
      * intros k Hk. destruct (decide (k = x)) as [-> | Hkx]; [apply list_elem_of_here |].
        apply list_elem_of_further, Hrun. lia.
      * intros Hin. apply elem_of_cons in Hin as [Hin | Hin]; [lia | exact (Hnext Hin)].
    + exists x. split; [reflexivity |]. split; [lia |]. split.
      * intros k Hk. replace k with x by lia. apply list_elem_of_here.
      * intros Hin. apply elem_of_cons in Hin as [Hin | Hin]; [lia |].
        apply StronglySorted_inv in Hsorted as [_ Hrest].
        apply elem_of_cons in Hin as [Hin | Hin]; [lia |].
        rewrite Forall_forall in Hrest. specialize (Hrest _ Hin). lia.
Qed.

Lemma sortNumbers_sorted (l : list Z) : StronglySorted Z.le (sortNumbers l).
Proof. apply StronglySorted_merge_sort; [intros x y z; lia | intros x y; lia]. Qed.

Lemma sortNumbers_elem (l : list Z) (x : Z) : x ∈ sortNumbers l <-> x ∈ l.
Proof. unfold sortNumbers. rewrite merge_sort_Permutation. reflexivity. Qed.

Lemma sortNumbers_NoDup (l : list Z) : NoDup l -> NoDup (sortNumbers l).
Proof. unfold sortNumbers. rewrite merge_sort_Permutation. done. Qed.

(** The in-order step, shared by the statements below. *)
Lemma handleDataPacket_in_order (s : Socket) (packet : Packet.t) :
  Packet.seqNr (Packet.header packet) = ackNr s + 1 ->
  inOrderSoFar (ackNrs s) (ackNr s + 1) ->
  let r := handleDataPacket bitmap s packet in
  largestContiguous (ackNrs (sock r)) (ackNr s + 1) (ackNr (sock r)) /\
  (exists r0, reader (sock r) = Some r0 /\ packet ∈ packets r0) /\
  effects r = [UtpSendStatePacket (sock r)].
Proof.
  intros Hseq (Hnodup & Hfresh & Hgapfree).
  destruct (handleDataPacket_fields bitmap s packet) as (_ & _ & Hrd & Hacks & Hack & Heff).
  cbv zeta in *. rewrite Hseq, Z.eqb_refl in Hacks, Hack, Heff.
  rewrite Hrd, Hacks, Hack, Heff. clear Hrd Hacks Hack Heff.
  split; [| split; [| reflexivity]].
  2:{ eexists. split; [reflexivity |]. simpl. set_solver. }
  set (p := ackNr s + 1) in *.
  set (l := sortNumbers (ackNrs s ++ [p])).
  assert (Hp : p ∈ l) by (apply sortNumbers_elem; set_solver).
  assert (Hnd : NoDup l).
  { apply sortNumbers_NoDup, NoDup_app. repeat split; [exact Hnodup | | apply NoDup_singleton].
    intros x Hx Hx'. apply list_elem_of_singleton in Hx'. subst x. exact (Hfresh Hx). }
  destruct l as [|x rest] eqn:Hl; [inversion Hp |].
  destruct (findGap_sorted (x :: rest)) with (x := x) (rest := rest)
    as (n & Hfind & Hxn & Hrun & Hnext);
    [rewrite <- Hl; apply sortNumbers_sorted | exact Hnd | reflexivity |].
  rewrite Hfind. simpl default.
  assert (Hxp : x <= p).
  { pose proof (sortNumbers_sorted (ackNrs s ++ [p])) as Hs. fold l in Hs. rewrite Hl in Hs.
    apply StronglySorted_inv in Hs as [_ Hs]. rewrite Forall_forall in Hs.
    apply elem_of_cons in Hp as [-> | Hp]; [lia | exact (Hs _ Hp)]. }
  assert (Hbelow : forall k, x <= k <= p -> k ∈ x :: rest).
  { intros k Hk. destruct (decide (k = p)) as [-> | Hkp]; [exact Hp |].
    rewrite <- Hl. apply sortNumbers_elem, elem_of_app. left.
    apply (Hgapfree x); [| lia | lia].
    assert (Hx : x ∈ l) by (rewrite Hl; apply list_elem_of_here).
    apply sortNumbers_elem, elem_of_app in Hx as [Hx | Hx]; [exact Hx |].
    apply list_elem_of_singleton in Hx. lia. }
  assert (Hpn : p <= n).
  { destruct (Z_le_gt_dec p n) as [Hle | Hgt]; [exact Hle |].
    exfalso. apply Hnext, Hbelow. lia. }
  repeat split; [exact Hpn | | exact Hnext].
  intros k Hk. apply Hrun. lia.
Qed.

(** The in-order branch of [handleDataPacket] as the claim has it. When
    nothing has been received twice and the numbers below the arriving one
    have no gap, the packet numbered [ackNr + 1] moves [ackNr] to the
    largest contiguous received number, the packet is handed to the reader
    and a plain STATE packet is emitted. *)
Theorem ackNr_is_largest_contiguous (s : Socket) (packet : Packet.t) :
  Packet.seqNr (Packet.header packet) = ackNr s + 1 ->
  inOrderSoFar (ackNrs s) (ackNr s + 1) ->
  let r := handleDataPacket bitmap s packet in
  largestContiguous (ackNrs (sock r)) (ackNr s + 1) (ackNr (sock r)) /\
  (exists r0, reader (sock r) = Some r0 /\ packet ∈ packets r0) /\
  effects r = [UtpSendStatePacket (sock r)].
Proof. exact (handleDataPacket_in_order s packet). Qed.

(** The out-of-order branch: the packet is buffered, [ackNr] is left as it
    was and the STATE packet carries the selective-ACK mask. *)
Lemma handleDataPacket_out_of_order (s : Socket) (packet : Packet.t) :
  Packet.seqNr (Packet.header packet) <> ackNr s + 1 ->
  let r := handleDataPacket bitmap s packet in
  ackNr (sock r) = ackNr s /\
  ackNrs (sock r) = ackNrs s ++ [Packet.seqNr (Packet.header packet)] /\
  (exists r0, reader (sock r) = Some r0 /\ packet ∈ packets r0) /\
  effects r = [UtpSendSelectiveAckPacket (sock r) (generateSelectiveAckBitMask bitmap (sock r))].
Proof.
  intros Hseq.
  destruct (handleDataPacket_fields bitmap s packet) as (_ & _ & Hrd & Hacks & Hack & Heff).
  cbv zeta in *.
  assert (Hne : (ackNr s + 1 =? Packet.seqNr (Packet.header packet)) = false)
    by (apply Z.eqb_neq; lia).
  rewrite Hne in Hacks, Hack, Heff. rewrite Hrd, Hacks, Hack, Heff.
  repeat split. eexists. split; [reflexivity |]. simpl. set_solver.
Qed.

(** The search always finds an element in an array that is not empty, so
    the [Math.max] alternative of [handleDataPacket] is never taken: the
    array holds at least the number just pushed. *)
Lemma findGap_nonempty (l : list Z) : l <> [] -> is_Some (findGap l).
Proof.
  induction l as [|n rest IH]; intros Hne; [congruence |].
  simpl. destruct rest as [|m rest']; [eexists; reflexivity |].
  destruct (m =? n + 1); [apply IH; discriminate | eexists; reflexivity].
Qed.

(** After in-order data the search has found the new [ackNr]: the
    [Math.max] alternative was not needed. *)
Lemma handleDataPacket_ackNr_found (s : Socket) (packet : Packet.t) :
  Packet.seqNr (Packet.header packet) = ackNr s + 1 ->
  findGap (ackNrs (sock (handleDataPacket bitmap s packet)))
    = Some (ackNr (sock (handleDataPacket bitmap s packet))).
Proof.
  intros Hseq.
  destruct (handleDataPacket_fields bitmap s packet) as (_ & _ & _ & Hacks & Hack & _).
  cbv zeta in *. rewrite Hseq, Z.eqb_refl in Hacks, Hack. rewrite Hacks, Hack.
  destruct (findGap_nonempty (sortNumbers (ackNrs s ++ [ackNr s + 1]))) as [n Hn].
  - intros Hnil.
    assert (Hin : ackNr s + 1 ∈ sortNumbers (ackNrs s ++ [ackNr s + 1]))
      by (apply sortNumbers_elem, elem_of_app; right; apply list_elem_of_here).
    rewrite Hnil in Hin. inversion Hin.
  - rewrite Hn. reflexivity.
Qed.

End CumulativeAck.

(** The first data packet of a transfer, arriving in order at a fresh
    reader. *)
Lemma ackNr_is_largest_contiguous_witness :
  Wellformed.largestContiguous
    (UtpSocket.ackNrs Scenario.readingSocket) 11 (UtpSocket.ackNr Scenario.readingSocket).
Proof.
  destruct (ackNr_is_largest_contiguous Scenario.bitmap (Scenario.readerSocket 10)
              (Scenario.dataPacket 11) eq_refl) as [H _].
  - repeat split; [apply NoDup_nil_2 | | ]; simpl; set_solver.
  - exact H.
Defined.

(** ** The selective-ACK mask *)

Section SelectiveAck.

Import UtpSocket Wellformed.

Variable bitmap : list Z.
Hypothesis bitmap_valid : validBitmap bitmap.

Lemma bitmap_entry (i : nat) :
  (i < 32)%nat -> exists b, bitmap !! i = Some b /\ 1 <= b <= 32.
Proof.
  destruct bitmap_valid as (Hlen & _ & Hrange). intros Hi.
  destruct (lookup_lt_is_Some_2 bitmap i) as [b Hb]; [lia |].
  exists b. split; [exact Hb |]. apply Hrange. eapply list_elem_of_lookup_2, Hb.
Qed.

Lemma bitmap_inj (i j : nat) (b : Z) :
  bitmap !! i = Some b -> bitmap !! j = Some b -> i = j.
Proof.
  destruct bitmap_valid as (_ & Hnodup & _). intros Hi Hj.
  eapply NoDup_lookup; eassumption.
Qed.

(** Setting the bit of a table entry stays inside the 32 bits. *)
Lemma arraySet_entry (window : list bool) (b : Z) :
  length window = 32%nat -> 1 <= b <= 32 ->
  arraySet window (Some (b - 1)) true = <[Z.to_nat (b - 1) := true]> window.
Proof.
  intros Hlen Hb. unfold arraySet.
  destruct (Z.ltb_spec (b - 1) 0) as [Hneg | _]; [lia |].
  destruct (Z.ltb_spec (b - 1) (Z.of_nat (length window))) as [_ | Hout]; [reflexivity | lia].
Qed.

(** The loop, after [n] iterations from index [i]: the bits that are true
    are those that were true before and those of the table entries [j]
    visited for which [ackNr + 1 + j] has been received. *)
Lemma fillWindow_bits (s : Socket) (n : nat) :
  forall (i : nat) (window : list bool),
  length window = 32%nat -> (i + n <= 32)%nat ->
  length (fillWindow bitmap s n i window) = 32%nat /\
  forall k : nat,
    fillWindow bitmap s n i window !! k = Some true <->
    window !! k = Some true \/
    exists (j : nat) (b : Z),
      (i <= j < i + n)%nat /\ bitmap !! j = Some b /\ Z.to_nat (b - 1) = k /\
      includes (ackNrs s) (ackNr s + 1 + Z.of_nat j) = true.
Proof.
  induction n as [|n IH]; intros i window Hlen Hin; simpl.
  - split; [exact Hlen |]. intros k. split; [auto |].
    intros [H | (j & b & Hj & _)]; [exact H | lia].
  - destruct (bitmap_entry i) as (b & Hb & Hrange); [lia |].
    rewrite Hb. change ((fun b0 : Z => b0 - 1) <$> Some b) with (Some (b - 1)).
    destruct (includes (ackNrs s) (ackNr s + 1 + Z.of_nat i)) eqn:Hinc.
    + rewrite (arraySet_entry window b Hlen Hrange).
      destruct (IH (S i) (<[Z.to_nat (b - 1) := true]> window)) as [Hlen' Hbits];
        [rewrite length_insert; exact Hlen | lia |].
      split; [exact Hlen' |]. intros k. rewrite Hbits. clear Hbits. split.
      * intros [Hk | (j & b' & Hj & Hb' & Hk & Hinc')].
        -- destruct (decide (Z.to_nat (b - 1) = k)) as [Heq | Hne].
           ++ right. exists i, b. repeat split; [lia | lia | exact Hb | exact Heq | exact Hinc].
           ++ left. rewrite list_lookup_insert_ne in Hk by exact Hne. exact Hk.
        -- right. exists j, b'. repeat split; [lia | lia | exact Hb' | exact Hk | exact Hinc'].
      * intros [Hk | (j & b' & Hj & Hb' & Hk & Hinc')].
        -- left. destruct (decide (Z.to_nat (b - 1) = k)) as [Heq | Hne].
           ++ subst k. apply list_lookup_insert_eq. lia.
           ++ rewrite list_lookup_insert_ne by exact Hne. exact Hk.
        -- destruct (decide (j = i)) as [-> | Hji].
           ++ left. rewrite Hb in Hb'. injection Hb' as <-. subst k.
              apply list_lookup_insert_eq. lia.
           ++ right. exists j, b'. repeat split; [lia | lia | exact Hb' | exact Hk | exact Hinc'].
    + destruct (IH (S i) window Hlen) as [Hlen' Hbits]; [lia |].
      split; [exact Hlen' |]. intros k. rewrite Hbits. clear Hbits. split.
      * intros [Hk | (j & b' & Hj & Hb' & Hk & Hinc')]; [left; exact Hk |].
        right. exists j, b'. repeat split; [lia | lia | exact Hb' | exact Hk | exact Hinc'].
      * intros [Hk | (j & b' & Hj & Hb' & Hk & Hinc')]; [left; exact Hk |].
        destruct (decide (j = i)) as [-> | Hji]; [congruence |].
        right. exists j, b'. repeat split; [lia | lia | exact Hb' | exact Hk | exact Hinc'].
Qed.

(** What the mask encodes. With a table that is a permutation of 1..32,
    the window has 32 bits; for each [i] in 0..31 the bit at index
    [bitmap[i] - 1] is true exactly when [ackNr + 1 + i] has been received,
    and no other bit is true. The mask therefore describes
    [ackNr + 1 .. ackNr + 32]. *)
Theorem selectiveAckWindow_bits (s : Socket) :
  let window := selectiveAckWindow bitmap s in
  length window = 32%nat /\
  (forall (i : nat) (b : Z), bitmap !! i = Some b ->
     window !! Z.to_nat (b - 1) = Some (includes (ackNrs s) (ackNr s + 1 + Z.of_nat i))) /\
  (forall k : nat, window !! k = Some true ->
     exists (i : nat) (b : Z), bitmap !! i = Some b /\ Z.to_nat (b - 1) = k /\
       (ackNr s + 1 + Z.of_nat i) ∈ ackNrs s).
Proof.
  cbv zeta. unfold selectiveAckWindow.
  destruct (fillWindow_bits s 32 0 (replicate 32 false)) as [Hlen Hbits];
    [apply length_replicate | lia |].
  assert (Hfalse : forall k : nat, replicate 32 false !! k <> Some true).
  { intros k Hk. apply lookup_replicate in Hk as [Hk _]. discriminate Hk. }
  split; [exact Hlen |]. split.
  - intros i b Hb.
    assert (Hi : (i < 32)%nat).
    { destruct bitmap_valid as (Hl & _). apply lookup_lt_Some in Hb. lia. }
    destruct (bitmap_entry i Hi) as (b' & Hb' & Hrange). rewrite Hb in Hb'. injection Hb' as <-.
    destruct (lookup_lt_is_Some_2 (fillWindow bitmap s 32 0 (replicate 32 false))
                (Z.to_nat (b - 1))) as [v Hv]; [lia |].
    rewrite Hv. f_equal.
    destruct v.
    + apply Hbits in Hv as [Hv | (j & b' & _ & Hb' & Hk & Hinc)]; [exfalso; exact (Hfalse _ Hv) |].
      assert (b' = b).
      { destruct (bitmap_entry j) as (b'' & Hb'' & Hr'');
          [apply lookup_lt_Some in Hb'; destruct bitmap_valid as (Hl & _); lia |].
        rewrite Hb' in Hb''. injection Hb'' as <-. lia. }
      subst b'. rewrite (bitmap_inj _ _ _ Hb Hb'). symmetry. exact Hinc.
    + destruct (includes (ackNrs s) (ackNr s + 1 + Z.of_nat i)) eqn:Hinc; [| reflexivity].
      assert (Htrue : fillWindow bitmap s 32 0 (replicate 32 false) !! Z.to_nat (b - 1) = Some true).
      { apply Hbits. right. exists i, b. repeat split; [lia | lia | exact Hb | exact Hinc]. }
      congruence.
  - intros k Hk. apply Hbits in Hk as [Hk | (j & b & _ & Hb & Hkb & Hinc)];
      [exfalso; exact (Hfalse _ Hk) |].
    exists j, b. repeat split; [exact Hb | exact Hkb |].
    unfold includes in Hinc. apply bool_decide_eq_true in Hinc. exact Hinc.
Qed.

(** Scenario S5 with any table that is a permutation of 1..32: the bit
    for [i = 0], which the scenario expects to be true because 102 has been
    received, is false, because the loop asks whether 101 has been
    received. *)
Lemma selective_ack_S5_any_table (b : Z) :
  bitmap !! 0%nat = Some b ->
  selectiveAckWindow bitmap
    (sock (handleDataPacket bitmap
       (sock (handleDataPacket bitmap
          (sock (handleDataPacket bitmap (Scenario.readerSocket 100) (Scenario.dataPacket 102)))
          (Scenario.dataPacket 104)))
       (Scenario.dataPacket 133))) !! Z.to_nat (b - 1) = Some false.
Proof.
  intros Hb.
  match goal with |- selectiveAckWindow _ ?s !! _ = _ =>
    destruct (selectiveAckWindow_bits s) as (_ & Hbits & _);
    cbv zeta in Hbits; rewrite (Hbits 0%nat b Hb);
    assert (Hstate : ackNr s = 100 /\ ackNrs s = [102; 104; 133]) by by_evaluation
  end.
  destruct Hstate as [-> ->]. reflexivity.
Qed.

End SelectiveAck.

(** The four bytes of the mask hold the window bit by bit: bit [k] of the
    window is bit [k mod 8] of byte [k / 8]. *)
Lemma serializeBitVector32_bit (window : list bool) (k : nat) :
  (k < 32)%nat ->
  Z.testbit (nth (k / 8) (UtpSocket.serializeBitVector32 window) 0) (Z.of_nat (k mod 8))
    = default false (window !! k).
Proof.
  intros Hk. unfold UtpSocket.serializeBitVector32, UtpSocket.packByte, UtpSocket.bitAt.
  do 32 (destruct k as [|k];
    [ cbn [Nat.div Nat.modulo Nat.divmod fst snd Nat.sub seq map nth foldr Nat.mul Nat.add];
      repeat match goal with
             | |- context [default false (window !! ?n)] =>
                 generalize (default false (window !! n)); intros ?
             end;
      repeat match goal with b : bool |- _ => destruct b end; reflexivity
    | ]).
  lia.
Qed.

Lemma scenario_bitmap_valid : Wellformed.validBitmap Scenario.bitmap.
Proof.
  split; [reflexivity |]. split.
  - apply (bool_decide_unpack (NoDup Scenario.bitmap)). vm_compute. exact I.
  - intros b Hb.
    assert (Hall : Forall (fun b => 1 <= b <= 32) Scenario.bitmap)
      by (unfold Scenario.bitmap; repeat constructor; lia).
    rewrite Forall_forall in Hall. exact (Hall b Hb).
Qed.

(** Scenario S5 through the general statement: with the byte-reversing
    table, entry 1 is 7, and its bit (index 6) says that 102 = 100 + 1 + 1
    has been received. *)
Lemma selectiveAckWindow_bits_witness :
  UtpSocket.selectiveAckWindow Scenario.bitmap Scenario.s5Socket !! Z.to_nat (7 - 1)
    = Some (UtpSocket.includes (UtpSocket.ackNrs Scenario.s5Socket)
              (UtpSocket.ackNr Scenario.s5Socket + 1 + Z.of_nat 1)).
Proof.
  exact (proj1 (proj2 (selectiveAckWindow_bits Scenario.bitmap scenario_bitmap_valid
                         Scenario.s5Socket)) 1%nat 7 eq_refl).
Defined.

(* ===================================================================== *)
(** * Part III: further properties of the modelled code                   *)
(* ===================================================================== *)

(** ** The content store over several writes *)






(** ** Sending data: the outgoing buffer and the window *)

Section Sending.

Import UtpSocket.

Variable DEFAULT_PACKET_SIZE : Z.

(** [sendDataPacket] counts a sequence number once. A packet whose number
    is not in the outgoing buffer adds one entry and one packet size to
    [cur_window]; a packet whose number is already there (a resend) only
    replaces the recorded timestamp and leaves the count as it was. Either
    way the socket's own [seqNr] moves on by one and the datagram is handed
    to the transport. *)
Theorem sendDataPacket_counts_each_number_once (s : Socket) (packet : Packet.t) :
  let r := sendDataPacket DEFAULT_PACKET_SIZE s packet in
  let n := Packet.seqNr (Packet.header packet) in
  outBuffer (sock r) !! n = Some (Packet.timestampMicroseconds (Packet.header packet)) /\
  size (outBuffer (sock r)) =
    (match outBuffer s !! n with Some _ => size (outBuffer s) | None => S (size (outBuffer s)) end) /\
  cur_window (sock r) = Z.of_nat (size (outBuffer (sock r))) * DEFAULT_PACKET_SIZE /\
  seqNr (sock r) = seqNr s + 1 /\
  effects r = [Send (remoteAddress s) packet Packet.ST_DATA].
Proof.
  unfold sendDataPacket; simpl. split; [apply lookup_insert_eq |].
  split; [| repeat split].
  rewrite map_size_insert. destruct (outBuffer s !! _); reflexivity.
Qed.

Lemma sendDataPackets_fields (ps : list Packet.t) :
  forall s : Socket,
  outBuffer (Runs.sendDataPackets DEFAULT_PACKET_SIZE s ps)
    = foldl (fun m p => <[Packet.seqNr (Packet.header p) :=
                            Packet.timestampMicroseconds (Packet.header p)]> m)
        (outBuffer s) ps /\
  seqNr (Runs.sendDataPackets DEFAULT_PACKET_SIZE s ps) = seqNr s + Z.of_nat (length ps) /\
  (ps <> [] ->
   state (Runs.sendDataPackets DEFAULT_PACKET_SIZE s ps) = Some Connected /\
   cur_window (Runs.sendDataPackets DEFAULT_PACKET_SIZE s ps)
     = Z.of_nat (size (outBuffer (Runs.sendDataPackets DEFAULT_PACKET_SIZE s ps)))
       * DEFAULT_PACKET_SIZE).
Proof.
  induction ps as [|p ps IH] using rev_ind; intros s.
  - simpl. repeat split; [lia | congruence | congruence].
  - unfold Runs.sendDataPackets in *. rewrite !foldl_app.
    destruct (IH s) as (Hbuf & Hseq & _).
    cbn [foldl]. set (s1 := foldl _ s ps) in *.
    unfold sendDataPacket; simpl.
    rewrite Hbuf, Hseq, length_app. simpl. repeat split. lia.
Qed.

Lemma size_foldl_insert_fresh (ps : list Packet.t) :
  forall m : gmap Z Z,
  NoDup (Runs.numbers ps) ->
  Forall (fun p => m !! Packet.seqNr (Packet.header p) = None) ps ->
  size (foldl (fun m p => <[Packet.seqNr (Packet.header p) :=
                              Packet.timestampMicroseconds (Packet.header p)]> m) m ps)
    = (size m + length ps)%nat.
Proof.
  induction ps as [|p ps IH]; intros m Hnodup Hfresh; cbn [foldl length]; [lia |].
  change (Runs.numbers (p :: ps))
    with (Packet.seqNr (Packet.header p) :: Runs.numbers ps) in Hnodup.
  apply NoDup_cons in Hnodup as [Hp Hnodup].
  apply Forall_cons in Hfresh as [Hpm Hfresh].
  rewrite IH.
  - rewrite map_size_insert_None by exact Hpm. lia.
  - exact Hnodup.
  - rewrite Forall_forall in *. intros q Hq.
    rewrite lookup_insert_ne; [apply Hfresh, Hq |].
    intros Heq. apply Hp. rewrite Heq. unfold Runs.numbers.
    apply (list_elem_of_fmap_2 (fun p => Packet.seqNr (Packet.header p))). exact Hq.
Qed.

(** A burst of data packets with distinct numbers, none of them in flight
    yet, grows [cur_window] by one packet size each: afterwards it is the
    earlier number of entries plus the number of packets sent, times the
    packet size, and [seqNr] has advanced by the number of packets. *)
Theorem sendDataPackets_grows_window (s : Socket) (ps : list Packet.t) :
  ps <> [] ->
  NoDup (Runs.numbers ps) ->
  Forall (fun p => outBuffer s !! Packet.seqNr (Packet.header p) = None) ps ->
  let s' := Runs.sendDataPackets DEFAULT_PACKET_SIZE s ps in
  state s' = Some Connected /\
  cur_window s' = (Z.of_nat (size (outBuffer s)) + Z.of_nat (length ps)) * DEFAULT_PACKET_SIZE /\
  seqNr s' = seqNr s + Z.of_nat (length ps).
Proof.
  intros Hne Hnodup Hfresh. cbv zeta.
  destruct (sendDataPackets_fields ps s) as (Hbuf & Hseq & Hwin).
  destruct (Hwin Hne) as [Hst Hcw].
  rewrite Hst, Hcw, Hseq, Hbuf, (size_foldl_insert_fresh ps _ Hnodup Hfresh).
  repeat split. lia.
Qed.

(** ** Closing: the FIN and its acknowledgement *)

Lemma handleStatePacket_finNr (s : Socket) (packet : Packet.t) :
  finNr (sock (handleStatePacket DEFAULT_PACKET_SIZE s packet)) = finNr s.
Proof.
  unfold handleStatePacket.
  destruct (isFinAck s packet); [reflexivity |].
  destruct (type s); [reflexivity |].
  match goal with |- context [compare ?t] =>
    destruct (compare_fields t) as (_ & _ & _ & _ & _ & Hfin & _);
    destruct (compare t) as [t' eq] end.
  simpl in Hfin.
  destruct eq; [| destruct (writerWriting t')]; simpl; rewrite Hfin;
    destruct (writer s); reflexivity.
Qed.

Lemma isFinAck_true (s : Socket) (packet : Packet.t) :
  isFinAck s packet = true <-> finNr s = Some (Packet.ackNr (Packet.header packet)).
Proof.
  unfold isFinAck. destruct (finNr s) as [f|]; [| split; discriminate].
  rewrite Z.eqb_eq. split; [intros ->; reflexivity | intros H; injection H as ->; reflexivity].
Qed.

(** A STATE packet closes the socket exactly when the socket has sent a
    FIN and the packet acknowledges that FIN's number; in every other case
    the socket is [Connected] afterwards. The handler never changes
    [finNr]. *)
Theorem state_packet_closes_iff_fin_acked (s : Socket) (packet : Packet.t) :
  let s' := sock (handleStatePacket DEFAULT_PACKET_SIZE s packet) in
  (state s' = Some Closed <-> finNr s = Some (Packet.ackNr (Packet.header packet))) /\
  (state s' = Some Closed \/ state s' = Some Connected) /\
  finNr s' = finNr s.
Proof.
  cbv zeta.
  destruct (handleStatePacket_fields DEFAULT_PACKET_SIZE s packet) as (_ & Hst & _).
  cbv zeta in Hst. rewrite Hst, handleStatePacket_finNr, <- isFinAck_true.
  destruct (isFinAck s packet); repeat split; auto; discriminate.
Qed.

(** Sending a FIN and then receiving the STATE packet that acknowledges
    its number closes the socket, whatever its type and state were: the
    timer is cancelled, nothing is sent in reply and the handler reports
    completion. *)
Theorem fin_then_ack_closes (s : Socket) (fin ack : Packet.t) :
  Packet.ackNr (Packet.header ack) = Packet.seqNr (Packet.header fin) ->
  let sent := sendFinPacket s fin in
  let r := handleStatePacket DEFAULT_PACKET_SIZE (sock sent) ack in
  effects sent = [Send (remoteAddress s) fin Packet.ST_FIN] /\
  state (sock r) = Some Closed /\
  timeoutCounter (sock r) = None /\
  effects r = [] /\
  completion r = Return vtrue /\
  seqNr (sock r) = seqNr s /\ ackNr (sock r) = ackNr s /\ outBuffer (sock r) = outBuffer s.
Proof.
  intros Hack. unfold sendFinPacket, sendPacket, handleStatePacket, isFinAck; simpl.
  rewrite Hack, Z.eqb_refl. simpl. repeat split.
Qed.

End Sending.

(** Two further packets sent on a socket that has one packet in flight. *)
Lemma sendDataPackets_grows_window_witness :
  UtpSocket.cur_window
    (Runs.sendDataPackets Scenario.MTU Scenario.sendingSocket
       [Scenario.dataPacket 2; Scenario.dataPacket 3])
  = (Z.of_nat (size (UtpSocket.outBuffer Scenario.sendingSocket)) + Z.of_nat 2) * Scenario.MTU.
Proof.
  refine (proj1 (proj2 (sendDataPackets_grows_window Scenario.MTU Scenario.sendingSocket
                          [Scenario.dataPacket 2; Scenario.dataPacket 3] _ _ _))).
  - discriminate.
  - apply (bool_decide_unpack _). vm_compute. exact I.
  - repeat constructor.
Defined.

(** A FIN and the STATE packet that acknowledges its number. *)
Lemma fin_then_ack_closes_witness :
  UtpSocket.state
    (UtpSocket.sock
       (UtpSocket.handleStatePacket Scenario.MTU
          (UtpSocket.sock (UtpSocket.sendFinPacket Scenario.sendingSocket (Scenario.dataPacket 2)))
          (Scenario.statePacket 2)))
  = Some UtpSocket.Closed.
Proof.
  exact (proj1 (proj2 (fin_then_ack_closes Scenario.MTU Scenario.sendingSocket
                         (Scenario.dataPacket 2) (Scenario.statePacket 2) eq_refl))).
Defined.

(** ** Completion of a write: [compare] and the STATE handler *)

Section Completion.

Import UtpSocket.

Variable DEFAULT_PACKET_SIZE : Z.

Lemma sortNumbers_eq_iff (l k : list Z) : sortNumbers l = sortNumbers k <-> l ≡ₚ k.
Proof.
  unfold sortNumbers. split.
  - intros Heq. rewrite <- (merge_sort_Permutation Z.le l), Heq.
    apply merge_sort_Permutation.
  - intros Hperm.
    apply (StronglySorted_unique_strong Z.le).
    + intros x y _ _ Hxy Hyx. lia.
    + apply StronglySorted_merge_sort; [intros x y z; lia | intros x y; lia].
    + apply StronglySorted_merge_sort; [intros x y z; lia | intros x y; lia].
    + rewrite !merge_sort_Permutation. exact Hperm.
Qed.

Lemma compare_result (s : Socket) : (compare s).2 = true <-> dataNrs s ≡ₚ ackNrs s.
Proof.
  unfold compare; simpl. rewrite bool_decide_eq_true. apply sortNumbers_eq_iff.
Qed.

(** [compare] answers true exactly when the numbers sent and the numbers
    acknowledged are the same numbers with the same multiplicities, in
    whatever order they were recorded. It reorders both arrays (they come
    back sorted) and neither adds nor drops a number. *)
Theorem compare_true_iff_same_numbers (s : Socket) :
  ((compare s).2 = true <-> dataNrs s ≡ₚ ackNrs s) /\
  dataNrs (compare s).1 ≡ₚ dataNrs s /\
  ackNrs (compare s).1 ≡ₚ ackNrs s /\
  StronglySorted Z.le (dataNrs (compare s).1) /\
  StronglySorted Z.le (ackNrs (compare s).1).
Proof.
  split; [apply compare_result |].
  unfold compare; simpl. unfold sortNumbers.
  repeat split; try apply merge_sort_Permutation;
    apply StronglySorted_merge_sort; try (intros x y z; lia); intros x y; lia.
Qed.

(** On a write socket, a STATE packet that does not acknowledge the FIN
    has one of two outcomes. Either every number sent has been
    acknowledged: the handler reports completion and does nothing else. Or
    some number is missing (or acknowledged more often than sent): the
    handler returns nothing, and restarts the writer exactly when the
    writer is writing. *)
Theorem handleStatePacket_reports_completion (s : Socket) (packet : Packet.t) :
  type s = TWrite ->
  isFinAck s packet = false ->
  let r := handleStatePacket DEFAULT_PACKET_SIZE s packet in
  (dataNrs s ≡ₚ ackNrs s /\ completion r = Return vtrue /\ effects r = []) \/
  (~ dataNrs s ≡ₚ ackNrs s /\ completion r = Return undefined /\
   effects r = if writerWriting s then [WriterStart] else []).
Proof.
  intros Hty Hfin. cbv zeta. unfold handleStatePacket. rewrite Hfin, Hty.
  match goal with |- context [compare ?t] => set (t0 := t) end.
  assert (Ht0 : dataNrs t0 = dataNrs s /\ ackNrs t0 = ackNrs s /\ writer t0 = writer s)
    by (subst t0; simpl; destruct (writer s) eqn:E; simpl; rewrite ?E; repeat split).
  destruct Ht0 as (Hd & Ha & Hw0).
  pose proof (compare_result t0) as Hres.
  destruct (compare_fields t0) as (_ & _ & _ & _ & _ & _ & Hw).
  destruct (compare t0) as [t' equal]. simpl in Hres, Hw.
  rewrite Hd, Ha in Hres.
  assert (Hww : writerWriting t' = writerWriting s)
    by (unfold writerWriting; rewrite Hw, Hw0; reflexivity).
  destruct equal.
  - left. split; [apply Hres; reflexivity | split; reflexivity].
  - right. split; [intros Hp; apply Hres in Hp; discriminate Hp |].
    rewrite <- Hww. destruct (writerWriting t'); split; reflexivity.
Qed.

End Completion.

(** Two packets sent, one of them acknowledged so far. *)
Lemma handleStatePacket_reports_completion_witness :
  UtpSocket.completion
    (UtpSocket.handleStatePacket Scenario.MTU Scenario.halfAckedSocket (Scenario.statePacket 2))
    = UtpSocket.Return UtpSocket.undefined /\
  UtpSocket.effects
    (UtpSocket.handleStatePacket Scenario.MTU Scenario.halfAckedSocket (Scenario.statePacket 2))
    = [UtpSocket.WriterStart].
Proof.
  destruct (handleStatePacket_reports_completion Scenario.MTU Scenario.halfAckedSocket
              (Scenario.statePacket 2) eq_refl eq_refl) as [(Hperm & _) | (_ & Hret & Heff)].
  - exfalso. apply Permutation_length in Hperm. discriminate Hperm.
  - split; [exact Hret | exact Heff].
Defined.

(** ** The FIN handler's outcomes *)

Section FinOutcomes.

Import UtpSocket.

Variable reader_run : ContentReader -> RunOutcome.


End FinOutcomes.

(** ** The reader over a whole transfer *)

Section ReaderRuns.

Import UtpSocket Wellformed.

Variable bitmap : list Z.

Lemma readerInOrder_initial (s : Socket) :
  ackNrs s = [] -> Runs.readerInOrder (ackNr s) s.
Proof.
  intros Hempty. unfold Runs.readerInOrder. rewrite Hempty.
  split; [apply NoDup_nil_2 |]. split; [intros x Hx; inversion Hx |].
  split; [lia |]. split; [intros k Hk; lia | intros Hx; inversion Hx].
Qed.

Lemma readerInOrder_step (from : Z) (s : Socket) (p : Packet.t) :
  Runs.readerInOrder from s ->
  Packet.seqNr (Packet.header p) ∉ ackNrs s ->
  from < Packet.seqNr (Packet.header p) ->
  Runs.readerInOrder from (sock (handleDataPacket bitmap s p)) /\
  ackNrs (sock (handleDataPacket bitmap s p)) ≡ₚ ackNrs s ++ [Packet.seqNr (Packet.header p)].
Proof.
  intros (Hnodup & Habove & Hfrom & Hrun & Hnext) Hfresh Hp.
  set (n := Packet.seqNr (Packet.header p)) in *.
  assert (Hahead : ackNr s < n).
  { destruct (Z_lt_le_dec (ackNr s) n) as [Hlt | Hle]; [exact Hlt |].
    exfalso. apply Hfresh, Hrun. lia. }
  assert (Hnodup' : NoDup (ackNrs s ++ [n])).
  { apply NoDup_app. repeat split; [exact Hnodup | | apply NoDup_singleton].
    intros x Hx Hx'. apply list_elem_of_singleton in Hx'. subst x. exact (Hfresh Hx). }
  destruct (decide (n = ackNr s + 1)) as [Hin | Hout].
  - destruct (handleDataPacket_in_order bitmap s p Hin) as [(Hle & Hall & Hstop) _].
    { repeat split; [exact Hnodup | rewrite <- Hin; exact Hfresh |].
      intros x Hx _ k Hk. apply Hrun. specialize (Habove x Hx). lia. }
    destruct (handleDataPacket_fields bitmap s p) as (_ & _ & _ & Hacks & _).
    cbv zeta in *. fold n in Hacks. rewrite Hin, Z.eqb_refl in Hacks.
    unfold Runs.readerInOrder. rewrite Hacks in *. rewrite <- Hin in *.
    assert (Hperm : sortNumbers (ackNrs s ++ [n]) ≡ₚ ackNrs s ++ [n])
      by apply merge_sort_Permutation.
    split; [| exact Hperm].
    repeat split.
    + rewrite Hperm. exact Hnodup'.
    + intros x Hx. rewrite Hperm in Hx. apply elem_of_app in Hx as [Hx | Hx];
        [exact (Habove x Hx) | apply list_elem_of_singleton in Hx; lia].
    + lia.
    + intros k Hk. destruct (Z_le_gt_dec k (ackNr s)) as [Hlow | Hhigh].
      * rewrite Hperm. apply elem_of_app. left. apply Hrun. lia.
      * apply Hall. lia.
    + exact Hstop.
  - destruct (handleDataPacket_fields bitmap s p) as (_ & _ & _ & Hacks & Hack & _).
    cbv zeta in *. fold n in Hacks, Hack.
    assert (Hne : (ackNr s + 1 =? n) = false) by (apply Z.eqb_neq; lia).
    rewrite Hne in Hacks, Hack. unfold Runs.readerInOrder. rewrite Hacks, Hack.
    split; [| reflexivity].
    repeat split.
    + exact Hnodup'.
    + intros x Hx. apply elem_of_app in Hx as [Hx | Hx];
        [exact (Habove x Hx) | apply list_elem_of_singleton in Hx; lia].
    + exact Hfrom.
    + intros k Hk. apply elem_of_app. left. apply Hrun, Hk.
    + intros Hx. apply elem_of_app in Hx as [Hx | Hx];
        [exact (Hnext Hx) | apply list_elem_of_singleton in Hx; lia].
Qed.

Lemma handleDataPackets_in_order (from : Z) (arrivals : list Packet.t) :
  forall s : Socket,
  Runs.readerInOrder from s ->
  NoDup (Runs.numbers arrivals) ->
  Forall (fun p => from < Packet.seqNr (Packet.header p) /\
                   Packet.seqNr (Packet.header p) ∉ ackNrs s) arrivals ->
  Runs.readerInOrder from (Runs.handleDataPackets bitmap s arrivals) /\
  ackNrs (Runs.handleDataPackets bitmap s arrivals) ≡ₚ ackNrs s ++ Runs.numbers arrivals.
Proof.
  induction arrivals as [|p ps IH]; intros s Hinv Hnodup Hall.
  - simpl. rewrite app_nil_r. split; [exact Hinv | reflexivity].
  - change (Runs.numbers (p :: ps))
      with (Packet.seqNr (Packet.header p) :: Runs.numbers ps) in *.
    apply NoDup_cons in Hnodup as [Hp Hnodup].
    apply Forall_cons in Hall as [[Hfrom Hfresh] Hall].
    destruct (readerInOrder_step from s p Hinv Hfresh Hfrom) as [Hinv1 Hperm1].
    change (Runs.handleDataPackets bitmap s (p :: ps))
      with (Runs.handleDataPackets bitmap (sock (handleDataPacket bitmap s p)) ps).
    destruct (IH (sock (handleDataPacket bitmap s p)) Hinv1 Hnodup) as [Hinv' Hperm'].
    + rewrite Forall_forall in *. intros q Hq. destruct (Hall q Hq) as [Hqf Hqs].
      split; [exact Hqf |]. rewrite Hperm1. intros Hin.
      apply elem_of_app in Hin as [Hin | Hin]; [exact (Hqs Hin) |].
      apply list_elem_of_singleton in Hin. apply Hp. rewrite <- Hin.
      apply (list_elem_of_fmap_2 (fun p => Packet.seqNr (Packet.header p))). exact Hq.
    + split; [exact Hinv' |]. rewrite Hperm', Hperm1, <- app_assoc. reflexivity.
Qed.

Lemma handleDataPackets_counts (arrivals : list Packet.t) :
  forall s : Socket,
  seqNr (Runs.handleDataPackets bitmap s arrivals) = seqNr s + Z.of_nat (length arrivals) /\
  (forall r0, reader s = Some r0 ->
     reader (Runs.handleDataPackets bitmap s arrivals)
       = Some {| startingSeqNr := startingSeqNr r0; packets := packets r0 ++ arrivals |}).
Proof.
  induction arrivals as [|p ps IH]; intros s.
  - simpl. split; [lia |]. intros [st pk] Hr. rewrite Hr, app_nil_r. reflexivity.
  - change (Runs.handleDataPackets bitmap s (p :: ps))
      with (Runs.handleDataPackets bitmap (sock (handleDataPacket bitmap s p)) ps).
    destruct (IH (sock (handleDataPacket bitmap s p))) as [Hseq Hrd].
    destruct (handleDataPacket_fields bitmap s p) as (_ & Hseq1 & Hrd1 & _).
    cbv zeta in *. split.
    + rewrite Hseq, Hseq1. cbn [length]. lia.
    + intros r0 Hr. rewrite (Hrd _ Hrd1), Hr. simpl. rewrite <- app_assoc. reflexivity.
Qed.

(** A reader that has not received anything yet is given packets with
    distinct numbers above its [ackNr], in any order. Afterwards [ackNrs]
    holds exactly their numbers, and [ackNr] is the end of the run of
    consecutive numbers that starts right above the initial [ackNr]: every
    number up to it has arrived and the next one has not. [seqNr] has
    advanced by one per packet. *)
Theorem reader_acknowledges_contiguous_prefix (s : Socket) (arrivals : list Packet.t) :
  ackNrs s = [] ->
  NoDup (Runs.numbers arrivals) ->
  Forall (fun p => ackNr s < Packet.seqNr (Packet.header p)) arrivals ->
  let s' := Runs.handleDataPackets bitmap s arrivals in
  ackNrs s' ≡ₚ Runs.numbers arrivals /\
  ackNr s <= ackNr s' /\
  (forall k, ackNr s < k <= ackNr s' -> k ∈ Runs.numbers arrivals) /\
  (ackNr s' + 1 ∉ Runs.numbers arrivals) /\
  seqNr s' = seqNr s + Z.of_nat (length arrivals).
Proof.
  intros Hempty Hnodup Habove. cbv zeta.
  destruct (handleDataPackets_in_order (ackNr s) arrivals s) as [Hinv Hperm].
  - apply readerInOrder_initial, Hempty.
  - exact Hnodup.
  - rewrite Hempty. rewrite Forall_forall in *. intros p Hp.
    split; [exact (Habove p Hp) | intros Hin; inversion Hin].
  - rewrite Hempty in Hperm. simpl in Hperm.
    destruct Hinv as (_ & _ & Hfrom & Hrun & Hnext).
    split; [exact Hperm |]. split; [exact Hfrom |]. split; [| split].
    + intros k Hk. rewrite <- Hperm. apply Hrun, Hk.
    + rewrite <- Hperm. exact Hnext.
    + apply handleDataPackets_counts.
Qed.

(** The cumulative acknowledgement does not depend on the order of
    arrival: two arrival orders of the same packets, with distinct numbers
    above the reader's initial [ackNr], leave the same [ackNr]. *)
Theorem reader_ack_independent_of_arrival_order (s : Socket)
    (arrivals arrivals' : list Packet.t) :
  ackNrs s = [] ->
  NoDup (Runs.numbers arrivals) ->
  Forall (fun p => ackNr s < Packet.seqNr (Packet.header p)) arrivals ->
  arrivals ≡ₚ arrivals' ->
  ackNr (Runs.handleDataPackets bitmap s arrivals)
    = ackNr (Runs.handleDataPackets bitmap s arrivals').
Proof.
  intros Hempty Hnodup Habove Hperm.
  assert (Hnums : Runs.numbers arrivals ≡ₚ Runs.numbers arrivals')
    by (unfold Runs.numbers; rewrite Hperm; reflexivity).
  assert (Hinit : Runs.readerInOrder (ackNr s) s) by apply readerInOrder_initial, Hempty.
  assert (Hall : forall l, Forall (fun p => ackNr s < Packet.seqNr (Packet.header p)) l ->
            Forall (fun p => ackNr s < Packet.seqNr (Packet.header p) /\
                             Packet.seqNr (Packet.header p) ∉ ackNrs s) l).
  { intros l Hl. rewrite Forall_forall in *. intros p Hp. rewrite Hempty.
    split; [exact (Hl p Hp) | intros Hin; inversion Hin]. }
  destruct (handleDataPackets_in_order (ackNr s) arrivals s Hinit Hnodup (Hall _ Habove))
    as [(_ & _ & Hfrom & Hrun & Hnext) Hp1].
  destruct (handleDataPackets_in_order (ackNr s) arrivals' s Hinit)
    as [(_ & _ & Hfrom' & Hrun' & Hnext') Hp2].
  { rewrite <- Hnums. exact Hnodup. }
  { apply Hall. rewrite <- Hperm. exact Habove. }
  rewrite Hempty in Hp1, Hp2. simpl in Hp1, Hp2.
  set (n := ackNr (Runs.handleDataPackets bitmap s arrivals)) in *.
  set (n' := ackNr (Runs.handleDataPackets bitmap s arrivals')) in *.
  destruct (Z.lt_trichotomy n n') as [Hlt | [Heq | Hgt]]; [| exact Heq |].
  - exfalso. apply Hnext. rewrite Hp1, Hnums, <- Hp2. apply Hrun'. lia.
  - exfalso. apply Hnext'. rewrite Hp2, <- Hnums, <- Hp1. apply Hrun. lia.
Qed.

End ReaderRuns.

(** Packets 13, 11, 12 and 15 arrive at a reader that expects packet 11. *)
Lemma reader_acknowledges_contiguous_prefix_witness :
  UtpSocket.ackNr
    (Runs.handleDataPackets Scenario.bitmap (Scenario.readerSocket 10)
       [Scenario.dataPacket 13; Scenario.dataPacket 11; Scenario.dataPacket 12;
        Scenario.dataPacket 15])
  + 1 ∉ Runs.numbers
          [Scenario.dataPacket 13; Scenario.dataPacket 11; Scenario.dataPacket 12;
           Scenario.dataPacket 15].
Proof.
  refine (proj1 (proj2 (proj2 (proj2
    (reader_acknowledges_contiguous_prefix Scenario.bitmap (Scenario.readerSocket 10)
       [Scenario.dataPacket 13; Scenario.dataPacket 11; Scenario.dataPacket 12;
        Scenario.dataPacket 15] eq_refl _ _))))).
  - apply (bool_decide_unpack _). vm_compute. exact I.
  - repeat constructor.
Defined.

(** The same packets in two arrival orders. *)
Lemma reader_ack_independent_of_arrival_order_witness :
  UtpSocket.ackNr
    (Runs.handleDataPackets Scenario.bitmap (Scenario.readerSocket 10)
       [Scenario.dataPacket 12; Scenario.dataPacket 11])
  = UtpSocket.ackNr
      (Runs.handleDataPackets Scenario.bitmap (Scenario.readerSocket 10)
         [Scenario.dataPacket 11; Scenario.dataPacket 12]).
Proof.
  apply (reader_ack_independent_of_arrival_order Scenario.bitmap (Scenario.readerSocket 10)
           [Scenario.dataPacket 12; Scenario.dataPacket 11]
           [Scenario.dataPacket 11; Scenario.dataPacket 12] eq_refl).
  - apply (bool_decide_unpack _). vm_compute. exact I.
  - repeat constructor.
  - apply perm_swap.
Defined.

(** Packet 13 arrives at a reader that expects packet 11. *)
Lemma handleDataPacket_out_of_order_witness :
  UtpSocket.ackNr
    (UtpSocket.sock (UtpSocket.handleDataPacket Scenario.bitmap (Scenario.readerSocket 10)
                       (Scenario.dataPacket 13)))
  = UtpSocket.ackNr (Scenario.readerSocket 10).
Proof.
  refine (proj1 (handleDataPacket_out_of_order Scenario.bitmap (Scenario.readerSocket 10)
                   (Scenario.dataPacket 13) _)).
  simpl. lia.
Defined.

(** Packet 11 arrives at a reader that expects it. *)
Lemma handleDataPacket_ackNr_found_witness :
  UtpSocket.findGap
    (UtpSocket.ackNrs
       (UtpSocket.sock (UtpSocket.handleDataPacket Scenario.bitmap (Scenario.readerSocket 10)
                          (Scenario.dataPacket 11))))
  = Some (UtpSocket.ackNr
            (UtpSocket.sock (UtpSocket.handleDataPacket Scenario.bitmap
                               (Scenario.readerSocket 10) (Scenario.dataPacket 11)))).
Proof.
  apply (handleDataPacket_ackNr_found Scenario.bitmap (Scenario.readerSocket 10)
           (Scenario.dataPacket 11)).
  reflexivity.
Defined.

(** ** The selective-ACK mask, byte by byte *)

Lemma packByte_range (window : list bool) (j : nat) :
  0 <= UtpSocket.packByte window j < 256.
Proof.
  unfold UtpSocket.packByte, UtpSocket.bitAt.
  cbn [seq foldr Nat.mul Nat.add].
  repeat match goal with
         | |- context [default false (window !! ?n)] =>
             generalize (default false (window !! n)); intros ?
         end.
  repeat match goal with b : bool |- _ => destruct b end; vm_compute; split; congruence.
Qed.

Section MaskBytes.

Import UtpSocket Wellformed.

Variable bitmap : list Z.

(** The mask that is put on the wire. With a table that is a permutation
    of 1..32 it has four bytes, and for every [i] in 0..31 the bit numbered
    [bitmap[i] - 1] (bit [k mod 8] of byte [k / 8] for [k = bitmap[i] - 1])
    is set exactly when the number [ackNr + 1 + i] is in [ackNrs]. *)
Theorem selective_ack_mask_bytes (s : Socket) :
  validBitmap bitmap ->
  let mask := generateSelectiveAckBitMask bitmap s in
  length mask = 4%nat /\
  Forall (fun byte => 0 <= byte < 256) mask /\
  forall (i : nat) (b : Z), bitmap !! i = Some b ->
    Z.testbit (nth (Z.to_nat (b - 1) / 8) mask 0) (Z.of_nat (Z.to_nat (b - 1) mod 8))
      = includes (ackNrs s) (ackNr s + 1 + Z.of_nat i).
Proof.
  intros Hvalid. cbv zeta. unfold generateSelectiveAckBitMask.
  split; [reflexivity |]. split.
  - unfold serializeBitVector32. cbn [seq map]. repeat constructor; apply packByte_range.
  - intros i b Hb.
    destruct (selectiveAckWindow_bits bitmap Hvalid s) as (_ & Hbits & _).
    cbv zeta in Hbits.
    assert (Hrange : 1 <= b <= 32).
    { destruct Hvalid as (_ & _ & Hr). apply Hr. eapply list_elem_of_lookup_2, Hb. }
    rewrite serializeBitVector32_bit by lia.
    rewrite (Hbits i b Hb). reflexivity.
Qed.

Lemma fillWindow_nothing_received (s : Socket) (n : nat) :
  forall (i : nat) (window : list bool),
  (forall j : nat, (i <= j < i + n)%nat -> ackNr s + 1 + Z.of_nat j ∉ ackNrs s) ->
  fillWindow bitmap s n i window = window.
Proof.
  induction n as [|n IH]; intros i window Hnone; [reflexivity |].
  simpl. unfold includes.
  rewrite bool_decide_eq_false_2 by (apply Hnone; lia).
  apply IH. intros j Hj. apply Hnone. lia.
Qed.

(** When none of the 32 numbers after [ackNr] has been received, the mask
    is four zero bytes, whatever the remap table holds (even a table that
    is too short or has entries out of range). *)
Theorem selective_ack_mask_empty (s : Socket) :
  (forall k, ackNr s + 1 <= k <= ackNr s + 32 -> k ∉ ackNrs s) ->
  generateSelectiveAckBitMask bitmap s = [0; 0; 0; 0].
Proof.
  intros Hnone. unfold generateSelectiveAckBitMask, selectiveAckWindow.
  rewrite fillWindow_nothing_received; [reflexivity |].
  intros j Hj. apply Hnone. lia.
Qed.

End MaskBytes.

(** The mask of the reader that holds packets beyond a gap. *)
Lemma selective_ack_mask_bytes_witness :
  Z.testbit
    (nth (Z.to_nat (7 - 1) / 8)
       (UtpSocket.generateSelectiveAckBitMask Scenario.bitmap Scenario.s5Socket) 0)
    (Z.of_nat (Z.to_nat (7 - 1) mod 8))
  = UtpSocket.includes (UtpSocket.ackNrs Scenario.s5Socket)
      (UtpSocket.ackNr Scenario.s5Socket + 1 + Z.of_nat 1).
Proof.
  exact (proj2 (proj2 (selective_ack_mask_bytes Scenario.bitmap Scenario.s5Socket
                         scenario_bitmap_valid)) 1%nat 7 eq_refl).
Defined.

(** A reader that has received nothing. *)
Lemma selective_ack_mask_empty_witness :
  UtpSocket.generateSelectiveAckBitMask Scenario.bitmap (Scenario.readerSocket 10)
    = [0; 0; 0; 0].
Proof.
  apply selective_ack_mask_empty. intros k _ Hin. inversion Hin.
Defined.

(** ** The round-trip estimators over many measurements *)

(** Division truncated toward zero, by a positive divisor: the quotient,
    the remainder and the sign of the remainder. *)
Lemma quot_by_positive (a b : Z) :
  0 < b ->
  exists r, a = b * (a ÷ b) + r /\ (0 <= a -> 0 <= r < b) /\ (a <= 0 -> - b < r <= 0).
Proof.
  intros Hb. exists (Z.rem a b). split; [apply Z.quot_rem' |].
  split; intros Ha.
  - apply Z.rem_bound_pos_pos; lia.
  - apply Z.rem_bound_pos_neg; lia.
Qed.

Lemma quot_step_between (x y b : Z) :
  0 < b -> Z.min x y <= x + (y - x) ÷ b <= Z.max x y.
Proof.
  intros Hb. destruct (quot_by_positive (y - x) b Hb) as (r & Hq & Hpos & Hneg).
  generalize dependent ((y - x) ÷ b). intros q Hq. nia.
Qed.

Lemma quot_step_small (x y b : Z) :
  Z.abs (y - x) < b -> x + (y - x) ÷ b = x.
Proof.
  intros Hsmall. assert (Hb : 0 < b) by lia.
  destruct (quot_by_positive (y - x) b Hb) as (r & Hq & Hpos & Hneg).
  generalize dependent ((y - x) ÷ b). intros q Hq. nia.
Qed.

Section Estimators.

Import UtpSocket.

Lemma updateRTT_fields (s : Socket) (packetRTT : Z) :
  rtt_var (sock (updateRTT s packetRTT))
    = rtt_var s + (Z.abs (rtt s - packetRTT) - rtt_var s) ÷ 4 /\
  rtt (sock (updateRTT s packetRTT)) = rtt s + (packetRTT - rtt s) ÷ 8 /\
  timeout (sock (updateRTT s packetRTT))
    = Z.max 500 (rtt (sock (updateRTT s packetRTT))
                 + 4 * rtt_var (sock (updateRTT s packetRTT))) /\
  timeoutCounter (sock (updateRTT s packetRTT))
    = (if Z.abs (timeout (sock (updateRTT s packetRTT))) <=? BigNumber.MAX_SAFE_INTEGER
       then Some (timeout (sock (updateRTT s packetRTT))) else None) /\
  completion (updateRTT s packetRTT)
    = (if Z.abs (timeout (sock (updateRTT s packetRTT))) <=? BigNumber.MAX_SAFE_INTEGER
       then Return undefined else Throw NumericFault).
Proof.
  unfold updateRTT, armTimeout, BigNumber.toNumber, BigNumber.div. cbv zeta. simpl.
  set (v := rtt_var s + (Z.abs (rtt s - packetRTT) - rtt_var s) ÷ 4).
  set (m := rtt s + (packetRTT - rtt s) ÷ 8).
  set (t := if m + v * 4 >? 500 then m + v * 4 else 500).
  assert (Ht : t = Z.max 500 (m + 4 * v))
    by (subst t; destruct (Z.gtb_spec (m + v * 4) 500); lia).
  destruct (Z.abs t <=? BigNumber.MAX_SAFE_INTEGER) eqn:Hsafe; simpl; rewrite ?Hsafe;
    repeat split; exact Ht.
Qed.

(** A measurement closer than 8 to the current [rtt] does not move it, and
    a deviation closer than 4 to [rtt_var] does not move that: the
    divisions by 8 and by 4 truncate toward zero, so the estimators stop
    short of a steady measurement by up to 7 and up to 3. *)
Theorem updateRTT_ignores_small_differences (s : Socket) (packetRTT : Z) :
  (Z.abs (packetRTT - rtt s) < 8 -> rtt (sock (updateRTT s packetRTT)) = rtt s) /\
  (Z.abs (Z.abs (rtt s - packetRTT) - rtt_var s) < 4 ->
   rtt_var (sock (updateRTT s packetRTT)) = rtt_var s).
Proof.
  destruct (updateRTT_fields s packetRTT) as (Hvar & Hrtt & _).
  rewrite Hvar, Hrtt. split; intros Hsmall; apply quot_step_small; exact Hsmall.
Qed.

Lemma updateRTT_step_bounded (lo hi : Z) (s : Socket) (packetRTT : Z) :
  lo <= rtt s <= hi -> 0 <= rtt_var s <= hi - lo -> lo <= packetRTT <= hi ->
  lo <= rtt (sock (updateRTT s packetRTT)) <= hi /\
  0 <= rtt_var (sock (updateRTT s packetRTT)) <= hi - lo /\
  500 <= timeout (sock (updateRTT s packetRTT)) <= Z.max 500 (hi + 4 * (hi - lo)).
Proof.
  intros Hrtt Hvar Hsample.
  destruct (updateRTT_fields s packetRTT) as (Hv & Hm & Ht & _).
  rewrite Ht, Hv, Hm.
  pose proof (quot_step_between (rtt s) packetRTT 8 ltac:(lia)) as Hm'.
  pose proof (quot_step_between (rtt_var s) (Z.abs (rtt s - packetRTT)) 4 ltac:(lia)) as Hv'.
  lia.
Qed.

(** From estimators inside a range, any sequence of measurements inside
    that range keeps them there: [rtt] stays between the smallest and the
    largest value seen, [rtt_var] stays between zero and the width of the
    range, and the timeout never exceeds [max(500, hi + 4 (hi - lo))]. When
    that bound fits a JavaScript safe integer, the timer is left armed for
    the new timeout. *)
Theorem updateRTTs_stay_in_range (lo hi : Z) (s : Socket) (samples : list Z) :
  lo <= rtt s <= hi ->
  0 <= rtt_var s <= hi - lo ->
  Forall (fun packetRTT => lo <= packetRTT <= hi) samples ->
  Z.max 500 (hi + 4 * (hi - lo)) <= BigNumber.MAX_SAFE_INTEGER ->
  let s' := Runs.updateRTTs s samples in
  lo <= rtt s' <= hi /\
  0 <= rtt_var s' <= hi - lo /\
  (samples <> [] ->
   500 <= timeout s' <= Z.max 500 (hi + 4 * (hi - lo)) /\
   timeoutCounter s' = Some (timeout s')).
Proof.
  intros Hrtt Hvar Hsamples Hsafe. cbv zeta.
  induction samples as [|x samples IH] using rev_ind.
  - simpl. split; [exact Hrtt |]. split; [exact Hvar |]. intros Hne. congruence.
  - apply Forall_app in Hsamples as [Hsamples Hx].
    apply Forall_cons in Hx as [Hx _].
    destruct (IH Hsamples) as (Hrtt' & Hvar' & _).
    unfold Runs.updateRTTs in *. rewrite foldl_app. cbn [foldl].
    set (s1 := foldl _ s samples) in *.
    destruct (updateRTT_step_bounded lo hi s1 x Hrtt' Hvar' Hx) as (Hr & Hv & Ht).
    split; [exact Hr |]. split; [exact Hv |]. intros _. split; [exact Ht |].
    destruct (updateRTT_fields s1 x) as (_ & _ & _ & Htimer & _).
    rewrite Htimer.
    destruct (Z.leb_spec (Z.abs (timeout (sock (updateRTT s1 x)))) BigNumber.MAX_SAFE_INTEGER);
      [reflexivity | lia].
Qed.

End Estimators.

(** A sample of 1007 against an estimate of 1000. *)
Lemma updateRTT_ignores_small_differences_witness :
  UtpSocket.rtt (UtpSocket.sock (UtpSocket.updateRTT (Scenario.readerSocket 0) 1007)) = 1000.
Proof.
  apply (proj1 (updateRTT_ignores_small_differences (Scenario.readerSocket 0) 1007)).
  simpl. lia.
Defined.

(** Three samples between 900 and 1200. *)
Lemma updateRTTs_stay_in_range_witness :
  let s' := Runs.updateRTTs (Scenario.readerSocket 0) [900; 1200; 1000] in
  900 <= UtpSocket.rtt s' <= 1200 /\ 0 <= UtpSocket.rtt_var s' <= 1200 - 900.
Proof.
  destruct (updateRTTs_stay_in_range 900 1200 (Scenario.readerSocket 0) [900; 1200; 1000])
    as (Hrtt & Hvar & _).
  - simpl. lia.
  - simpl. lia.
  - repeat constructor; lia.
  - vm_compute. discriminate.
  - split; [exact Hrtt | exact Hvar].
Defined.

(** ** What no method of the socket undoes *)

Section Monotone.

Import UtpSocket.

Variable DEFAULT_PACKET_SIZE : Z.
Variable MAX_CWND_INCREASE_PACKETS_PER_RTT : Z.
Variable bitmap : list Z.
Variable reader_run : ContentReader -> RunOutcome.










End Monotone.

(** ** What the wait of the find-content methods can return *)

Section Delivered.

Import Portal.

Variable enrText : bytes -> string.

(** The value a wait is settled with was there before, or is the timer's
    empty array, or was delivered by an event whose hash matches the key. *)
Lemma foldl_dispatch_origin (contentKey : string) (events : list WaitEvent) (w : Wait)
    (v : bytes) :
  settled (foldl (dispatch contentKey) w events) = Some v ->
  settled w = Some v \/ v = [] \/
  exists contentType hash,
    UtpContent contentType hash v ∈ events /\ slice 2 hash = slice 4 contentKey.
Proof.
  revert w. induction events as [|e events IH]; intros w Hv; simpl in Hv.
  - left. exact Hv.
  - destruct (IH _ Hv) as [Hw | [Hnil | (ct & hash & Hin & Hhash)]].
    + destruct e as [|ct hash value]; unfold dispatch in Hw.
      * destruct (timer w); [| left; exact Hw].
        unfold resolve in Hw; simpl in Hw.
        destruct (settled w) eqn:Hs; simpl in Hw; [left; congruence |].
        right. left. congruence.
      * destruct (String.eqb (slice 2 hash) (slice 4 contentKey)) eqn:Hhash;
          [| left; exact Hw].
        unfold resolve in Hw; simpl in Hw.
        destruct (settled w) eqn:Hs; simpl in Hw; [left; congruence |].
        right. right. exists ct, hash. split.
        -- assert (value = v) by congruence. subst. apply list_elem_of_here.
        -- apply String.eqb_eq, Hhash.
    + right. left. exact Hnil.
    + right. right. exists ct, hash. split; [| exact Hhash].
      apply elem_of_cons. right. exact Hin.
Qed.

Lemma await_origin (contentKey : string) (events : list WaitEvent) (v : bytes) :
  settled (await contentKey events) = Some v ->
  v = [] \/
  exists contentType hash,
    UtpContent contentType hash v ∈ events /\ slice 2 hash = slice 4 contentKey.
Proof.
  intros Hv. destruct (foldl_dispatch_origin _ _ _ _ Hv) as [Hs | H]; [| exact H].
  discriminate Hs.
Qed.

(** After a uTP hand-off, whatever is dispatched while [stateFindContent]
    waits, content it returns is marked as a uTP transfer and is the text of
    bytes that are either empty or were delivered by an event whose hash
    matches the requested key: it never returns bytes that no matching
    event delivered. *)
Theorem stateFindContent_returns_delivered (contentKey : string) (known pong : bool)
    (connectionId : bytes) (events : list WaitEvent) (text : string) (utp : bool) :
  PortalState.stateFindContent contentKey known pong (Some (FoundUtp connectionId)) events
    = PortalState.Content text utp ->
  utp = true /\
  exists value,
    text = contentText value /\
    (value = [] \/
     exists contentType hash,
       UtpContent contentType hash value ∈ events /\ slice 2 hash = slice 4 contentKey).
Proof.
  unfold PortalState.stateFindContent.
  destruct (negb known && negb pong); [discriminate |].
  destruct (settled (await contentKey events)) as [v|] eqn:Hv; [| discriminate].
  intros Hret. injection Hret as Htext Hutp.
  split; [symmetry; exact Hutp |].
  exists v. split; [symmetry; exact Htext |].
  apply (await_origin _ _ _ Hv).
Qed.

(** Once [historyFindContent] has an answer, events dispatched later do not
    change it: a second delivery for the same key, or the timer, comes too
    late. *)
Theorem historyFindContent_answer_is_final (contentKey : string) (known pong : bool)
    (res : option Response) (events more : list WaitEvent) :
  historyFindContent enrText contentKey known pong res events <> StillWaiting ->
  historyFindContent enrText contentKey known pong res (events ++ more)
  = historyFindContent enrText contentKey known pong res events.
Proof.
  unfold historyFindContent.
  destruct (negb known && negb pong); [reflexivity |].
  destruct res as [[enrs | content | connectionId] |]; try reflexivity.
  destruct (settled (await contentKey events)) as [v|] eqn:Hv; [| congruence].
  intros _. unfold await in *. rewrite foldl_app.
  rewrite (foldl_dispatch_settled contentKey more _ v Hv). reflexivity.
Qed.

(** The listener of the wait never looks at the content type: two event
    sequences that differ only in the content types of their deliveries
    give the same answer. *)
Theorem historyFindContent_ignores_content_type (contentKey : string) (known pong : bool)
    (res : option Response) (events : list WaitEvent) (retype : Z -> Z) :
  historyFindContent enrText contentKey known pong res
    ((fun e => match e with
               | TimerFired => TimerFired
               | UtpContent contentType hash value => UtpContent (retype contentType) hash value
               end) <$> events)
  = historyFindContent enrText contentKey known pong res events.
Proof.
  unfold historyFindContent.
  destruct (negb known && negb pong); [reflexivity |].
  destruct res as [[enrs | content | connectionId] |]; try reflexivity.
  unfold await. generalize startWait as w.
  induction events as [|e events IH]; intros w; [reflexivity |].
  rewrite fmap_cons. cbn [foldl].
  replace (dispatch contentKey w
             match e with
             | TimerFired => TimerFired
             | UtpContent contentType hash value => UtpContent (retype contentType) hash value
             end) with (dispatch contentKey w e) by (destruct e; reflexivity).
  apply IH.
Qed.

End Delivered.

(** A delivery for another key, then the requested one: the answer is the
    text of the delivered bytes. *)
Lemma stateFindContent_returns_delivered_witness :
  PortalState.stateFindContent "0x01aabb" true false (Some (Portal.FoundUtp []))
    [Portal.UtpContent 0 "0xccdd" ["x"%byte]; Portal.UtpContent 1 "0xaabb" ["y"%byte]]
    = PortalState.Content "0x79" true /\
  true = true /\
  exists value,
    "0x79"%string = Portal.contentText value /\
    (value = [] \/
     exists contentType hash,
       Portal.UtpContent contentType hash value
         ∈ [Portal.UtpContent 0 "0xccdd" ["x"%byte]; Portal.UtpContent 1 "0xaabb" ["y"%byte]]
       /\ Portal.slice 2 hash = Portal.slice 4 "0x01aabb").
Proof.
  split; [vm_compute; reflexivity |].
  apply (stateFindContent_returns_delivered "0x01aabb" true false []
           [Portal.UtpContent 0 "0xccdd" ["x"%byte]; Portal.UtpContent 1 "0xaabb" ["y"%byte]]
           "0x79" true).
  vm_compute. reflexivity.
Defined.

(** The requested content is delivered; the timer and a second delivery
    come afterwards. *)
Lemma historyFindContent_answer_is_final_witness :
  Portal.historyFindContent (fun _ => EmptyString) "0x01aabb" false true
    (Some (Portal.FoundUtp [])) [Portal.UtpContent 1 "0xaabb" ["y"%byte]]
    <> Portal.StillWaiting /\
  Portal.historyFindContent (fun _ => EmptyString) "0x01aabb" false true
    (Some (Portal.FoundUtp []))
    ([Portal.UtpContent 1 "0xaabb" ["y"%byte]]
       ++ [Portal.TimerFired; Portal.UtpContent 1 "0xaabb" ["z"%byte]])
  = Portal.historyFindContent (fun _ => EmptyString) "0x01aabb" false true
      (Some (Portal.FoundUtp [])) [Portal.UtpContent 1 "0xaabb" ["y"%byte]].
Proof.
  assert (Hanswered :
    Portal.historyFindContent (fun _ => EmptyString) "0x01aabb" false true
      (Some (Portal.FoundUtp [])) [Portal.UtpContent 1 "0xaabb" ["y"%byte]]
      <> Portal.StillWaiting) by (vm_compute; discriminate).
  split; [exact Hanswered |].
  apply (historyFindContent_answer_is_final (fun _ => EmptyString) "0x01aabb" false true
           (Some (Portal.FoundUtp [])) [Portal.UtpContent 1 "0xaabb" ["y"%byte]]
           [Portal.TimerFired; Portal.UtpContent 1 "0xaabb" ["z"%byte]] Hanswered).
Defined.

(** ** The window after a delay update *)

(** A binary64 value that compares greater than zero is a number, and is
    not below zero. *)
Lemma gt0_is_number (x : float) :
  Number.gt0 x = true ->
  PrimFloat.is_nan x = false /\ PrimFloat.ltb x PrimFloat.zero = false.
Proof.
  unfold Number.gt0, PrimFloat.is_nan.
  rewrite !FloatAxioms.ltb_spec, FloatAxioms.eqb_spec.
  replace (FloatOps.Prim2SF PrimFloat.zero) with (SpecFloat.S754_zero false) by reflexivity.
  destruct (FloatOps.Prim2SF x) as [sg|sg| |sg m e];
    unfold SpecFloat.SFltb, SpecFloat.SFeqb, SpecFloat.SFcompare; try discriminate.
  - destruct sg; [discriminate |]. auto.
  - destruct sg; [discriminate |]. intros _.
    rewrite Z.compare_refl, Pos.compare_cont_refl. auto.
Qed.

(** Zero divided by zero is not a number, and what is computed from it
    does not compare greater than zero. *)
Lemma gt0_of_zero_by_zero (gain window max : float) :
  Number.gt0
    (PrimFloat.add max
       (PrimFloat.mul (PrimFloat.mul gain (PrimFloat.div PrimFloat.zero PrimFloat.zero))
          window)) = false.
Proof.
  unfold Number.gt0.
  rewrite FloatAxioms.ltb_spec, FloatAxioms.add_spec, !FloatAxioms.mul_spec.
  replace (FloatOps.Prim2SF (PrimFloat.div PrimFloat.zero PrimFloat.zero))
    with SpecFloat.S754_nan by (vm_compute; reflexivity).
  assert (H1 : forall x, FloatAxioms.SF64mul x SpecFloat.S754_nan = SpecFloat.S754_nan)
    by (intros []; reflexivity).
  assert (H2 : forall x, FloatAxioms.SF64mul SpecFloat.S754_nan x = SpecFloat.S754_nan)
    by (intros []; reflexivity).
  assert (H3 : forall x, FloatAxioms.SF64add x SpecFloat.S754_nan = SpecFloat.S754_nan)
    by (intros []; reflexivity).
  rewrite H1, H2, H3. reflexivity.
Qed.

Section WindowAfterDelay.

Import UtpSocket.

Variable MAX_CWND_INCREASE_PACKETS_PER_RTT : Z.

(** Whatever the delays and the windows were (a base delay of zero, a
    window of zero, a window that was not a number), when [updateDelay]
    returns, [max_window] is a number and is not negative; when it throws
    (a delay beyond the safe integers), [max_window] is what it was. *)
Theorem updateDelay_window_is_number (s : Socket) (timestamp timeReceived : Z) :
  let r := updateDelay MAX_CWND_INCREASE_PACKETS_PER_RTT s timestamp timeReceived in
  match completion r with
  | Return _ =>
      PrimFloat.is_nan (max_window (sock r)) = false /\
      PrimFloat.ltb (max_window (sock r)) PrimFloat.zero = false
  | Throw _ => max_window (sock r) = max_window s
  end.
Proof.
  cbv zeta. unfold updateDelay. cbv zeta.
  repeat match goal with
  | |- context [match BigNumber.toNumber ?a with _ => _ end] =>
      destruct (BigNumber.toNumber a)
  | |- context [if (?a >? ?b) then _ else _] => destruct (a >? b)
  | |- context [if BigNumber.js_lt ?a ?b then _ else _] => destruct (BigNumber.js_lt a b)
  end; cbn [completion sock ret throw]; try reflexivity;
  match goal with
  | |- context [if Number.gt0 ?x then _ else _] =>
      destruct (Number.gt0 x) eqn:Hgt; cbn [max_window set_max_window];
      [exact (gt0_is_number _ Hgt) | split; vm_compute; reflexivity]
  | |- _ => try (destruct (_ >? _); [| destruct (BigNumber.js_lt _ _)]; reflexivity)
  end.
Qed.

(** A delay measured as zero against a base delay of zero divides zero by
    zero: the sum is not a number, the comparison with zero fails, and the
    window is set to zero. *)
Theorem updateDelay_zero_delay_closes_window (s : Socket) (timestamp : Z) :
  Delay.delay (baseDelay s) = 0 ->
  let r := updateDelay MAX_CWND_INCREASE_PACKETS_PER_RTT s timestamp timestamp in
  completion r = Return undefined /\ max_window (sock r) = PrimFloat.zero.
Proof.
  intros Hbase. cbv zeta. unfold updateDelay. cbv zeta.
  rewrite Z.sub_diag.
  destruct (timestamp - _ >? 120000); [| destruct (BigNumber.js_lt _ _)];
    cbn [baseDelay set_baseDelay ourDelay set_ourDelay set_reply_micro Delay.delay];
    rewrite ?Hbase; rewrite ?Z.sub_diag;
    change (BigNumber.toNumber 0) with (Some 0); cbv iota beta;
    change (Number.of_Z 0) with PrimFloat.zero;
    rewrite gt0_of_zero_by_zero; split; reflexivity.
Qed.

End WindowAfterDelay.

(** A socket as the constructor leaves it (base delay zero) and a packet
    received at the very microsecond it was sent. *)
Lemma updateDelay_zero_delay_closes_window_witness :
  UtpSocket.Delay.delay (UtpSocket.baseDelay Scenario.writingSocket) = 0 /\
  UtpSocket.max_window
    (UtpSocket.sock (UtpSocket.updateDelay Scenario.MAX_CWND_INCREASE_PACKETS_PER_RTT
                       Scenario.writingSocket 1000000 1000000)) = PrimFloat.zero.
Proof.
  split; [reflexivity |].
  apply (updateDelay_zero_delay_closes_window Scenario.MAX_CWND_INCREASE_PACKETS_PER_RTT
           Scenario.writingSocket 1000000 eq_refl).
Defined.
